(** * The Title block tool of editorjs-title (src/index.js)

    A shallow embedding of the [Title] class: its constructor, the [data]
    accessor pair, [render], [validate], [save], [onPaste] and the static
    capability getters, over a store of the JavaScript objects the class
    reads and mutates.

    Modelling conventions.
    - A JavaScript string is the sequence of its UTF-16 code units.
    - Objects live in a store and are handled through references: the
      block instances, the [TitleData] records and the elements.  The
      record a caller hands to the [data] setter and the record the block
      keeps are one object, and the node [render] returns is the node the
      setter writes to.
    - Values have the types the JSDoc of the class gives them: [text] and
      [placeholder] are strings, [preserveBlank] is a boolean.  An
      optional property or argument is an [option]: [None] is the
      JavaScript [undefined] (an absent property reads as [undefined]).
    - The DOM is the host's, not this repository's.  An element is the
      record of the properties the class touches; its [innerHTML] is the
      serialisation of its content.  Assigning markup to [innerHTML]
      parses the markup and replaces the content, so that what is read
      back is the serialisation of the parsed fragment, not the string
      assigned: this function of the markup belongs to the [Document] the
      class runs in, and the class is modelled for every document.
      [classList.add] refuses a token that is empty or holds white
      space. *)

From Stdlib Require Import NArith Ascii String.
From stdpp Require Import base option list.

(** ** JavaScript strings *)

Definition jsstring : Type := list N.

(** The literal [s] as a JavaScript string (ASCII source text). *)
Definition js (s : string) : jsstring :=
  map N_of_ascii (list_ascii_of_string s).

Module JsString.
Local Open Scope N_scope.

(** WhiteSpace and LineTerminator code units of ECMAScript, the
    characters [String.prototype.trim] strips. *)
Definition isWhiteSpace (c : N) : bool :=
  (c =? 0x0009) || (c =? 0x000A) || (c =? 0x000B) || (c =? 0x000C)
  || (c =? 0x000D) || (c =? 0x0020) || (c =? 0x00A0) || (c =? 0x1680)
  || ((0x2000 <=? c) && (c <=? 0x200A))
  || (c =? 0x2028) || (c =? 0x2029) || (c =? 0x202F) || (c =? 0x205F)
  || (c =? 0x3000) || (c =? 0xFEFF).

Fixpoint trimStart (s : jsstring) : jsstring :=
  match s with
  | c :: s' => if isWhiteSpace c then trimStart s' else s
  | [] => []
  end.

Definition trimEnd (s : jsstring) : jsstring :=
  rev (trimStart (rev s)).

(** [s.trim()] *)
Definition trim (s : jsstring) : jsstring := trimEnd (trimStart s).

(** [s === ''] *)
Definition isEmpty (s : jsstring) : bool :=
  match s with [] => true | _ :: _ => false end.

(** ToBoolean on a possibly undefined string: [undefined] and [''] are
    falsy. *)
Definition truthy (v : option jsstring) : bool :=
  match v with
  | Some s => negb (isEmpty s)
  | None => false
  end.

(** [v || d] for a possibly undefined string [v]. *)
Definition orElse (v : option jsstring) (d : jsstring) : jsstring :=
  match v with
  | Some s => if truthy v then s else d
  | None => d
  end.

End JsString.

(** ** Data model *)

(** A reference to an object of the store. *)
Definition ref : Type := nat.

(** [TitleData]: the tool's input and output format. *)
Record TitleData : Type := mkTitleData {
  text : option jsstring
}.

(** [TitleConfig]: the tool's configuration. *)
Record TitleConfig : Type := mkTitleConfig {
  placeholder : option jsstring;
  preserveBlank : option bool
}.

(** The part of the editor's API the tool uses: [api.styles.block] and
    [api.i18n.t]. *)
Record Styles : Type := mkStyles { block : jsstring }.
Record I18n : Type := mkI18n { t : jsstring → jsstring }.
Record API : Type := mkAPI { styles : Styles; i18n : I18n }.

(** The properties of an HTML element the tool reads or writes. *)
Record HTMLElement : Type := mkHTMLElement {
  tagName : jsstring;
  classList : list jsstring;
  contentEditable : jsstring;
  dataset : list (jsstring * jsstring);
  innerHTML : jsstring
}.

(** [this._CSS] *)
Record CSS : Type := mkCSS { css_block : jsstring; css_wrapper : jsstring }.

(** The fields of a [Title] instance. *)
Record Title : Type := mkTitle {
  api : API;
  _CSS : CSS;
  _placeholder : jsstring;
  _data : ref;
  _element : ref;
  _preserveBlank : bool
}.

(** A paste event: [event.detail.data] is the pasted element. *)
Record PasteEventDetail : Type := mkPasteEventDetail { data : ref }.
Record PasteEvent : Type := mkPasteEvent { detail : PasteEventDetail }.

Record ConversionConfig : Type := mkConversionConfig {
  export : jsstring;
  import : jsstring
}.

Record PasteConfig : Type := mkPasteConfig { tags : list jsstring }.

Record Toolbox : Type := mkToolbox { icon : jsstring; title : jsstring }.

(** A sanitizer rule set is the list of the tags it allows; the class only
    ever writes the empty one, [{}]. *)
Record SanitizerConfig : Type := mkSanitizerConfig {
  sanitize_text : list jsstring
}.

(** ** The store and the monad of effects *)

Record Store : Type := mkStore {
  elements : list HTMLElement;
  objects : list TitleData;
  instances : list Title
}.

Definition set_elements (σ : Store) (l : list HTMLElement) : Store :=
  {| elements := l; objects := objects σ; instances := instances σ |}.

Definition set_objects (σ : Store) (l : list TitleData) : Store :=
  {| elements := elements σ; objects := l; instances := instances σ |}.

Definition set_instances (σ : Store) (l : list Title) : Store :=
  {| elements := elements σ; objects := objects σ; instances := l |}.

(** The errors a call can throw: a TypeError of the language and the two
    DOMExceptions of [classList.add]. *)
Inductive Error : Type := TypeError | SyntaxError | InvalidCharacterError.

(** The completion of a call: a value, a thrown error, both with the store
    they leave, or [Stuck] when a reference outside the store is
    dereferenced, which no JavaScript execution does. *)
Inductive Completion (A : Type) : Type :=
| Return (a : A) (σ : Store)
| Throw (e : Error) (σ : Store)
| Stuck.
Arguments Return {A} a σ.
Arguments Throw {A} e σ.
Arguments Stuck {A}.

Definition M (A : Type) : Type := Store → Completion A.

#[global] Instance M_ret : MRet M := λ A a σ, Return a σ.

#[global] Instance M_bind : MBind M := λ A B f m σ,
  match m σ with
  | Return a σ' => f a σ'
  | Throw e σ' => Throw e σ'
  | Stuck => Stuck
  end.

Definition throw {A : Type} (e : Error) : M A := λ σ, Throw e σ.

(** A new object holding [o]; its reference is returned. *)
Definition newObject (o : TitleData) : M ref := λ σ,
  Return (length (objects σ)) (set_objects σ (objects σ ++ [o])).

Definition readObject (r : ref) : M TitleData := λ σ,
  match objects σ !! r with
  | Some o => Return o σ
  | None => Stuck
  end.

Definition writeObject (r : ref) (o : TitleData) : M unit := λ σ,
  match objects σ !! r with
  | Some _ => Return tt (set_objects σ (<[r := o]> (objects σ)))
  | None => Stuck
  end.

Definition newElement (e : HTMLElement) : M ref := λ σ,
  Return (length (elements σ)) (set_elements σ (elements σ ++ [e])).

Definition readElement (r : ref) : M HTMLElement := λ σ,
  match elements σ !! r with
  | Some e => Return e σ
  | None => Stuck
  end.

Definition writeElement (r : ref) (e : HTMLElement) : M unit := λ σ,
  match elements σ !! r with
  | Some _ => Return tt (set_elements σ (<[r := e]> (elements σ)))
  | None => Stuck
  end.

(** A new instance with the fields [i]. *)
Definition newInstance (i : Title) : M ref := λ σ,
  Return (length (instances σ)) (set_instances σ (instances σ ++ [i])).

(** [this.f] *)
Definition field {A : Type} (this : ref) (f : Title → A) : M A := λ σ,
  match instances σ !! this with
  | Some i => Return (f i) σ
  | None => Stuck
  end.

(** [this.f = v], as the update [upd] of the fields. *)
Definition assign (this : ref) (upd : Title → Title) : M unit := λ σ,
  match instances σ !! this with
  | Some i => Return tt (set_instances σ (<[this := upd i]> (instances σ)))
  | None => Stuck
  end.

(** [o.p] where [o] may be [undefined]: reading a property of [undefined]
    throws a TypeError. *)
Definition member {O A : Type} (o : option O) (p : O → A) : M A :=
  match o with
  | Some x => mret (p x)
  | None => throw TypeError
  end.

(** [a && b] on booleans: [b] is evaluated only when [a] holds. *)
Definition and_then (a : bool) (b : M bool) : M bool :=
  if a then b else mret false.

(** ** The DOM operations the class calls *)

(** The document the class runs in.  [reparse markup] is what the
    [innerHTML] of an [h1] reads after [markup] has been assigned to it:
    the serialisation of the fragment the HTML parser makes of [markup].
    It is not the identity (['a & b'] reads back as ['a &amp; b'], an
    unclosed ['<b>Hi'] as ['<b>Hi</b>']); the empty markup gives an empty
    node. *)
Record Document : Type := mkDocument {
  reparse : jsstring → jsstring;
  reparse_empty : reparse [] = []
}.

Module DOM.
Local Open Scope N_scope.

Definition toUpperCase (s : jsstring) : jsstring :=
  map (λ c, if (0x61 <=? c) && (c <=? 0x7A) then c - 0x20 else c) s.

(** [document.createElement(name)]: a fresh element without classes,
    attributes or content. *)
Definition createElement (name : jsstring) : M ref :=
  newElement {| tagName := toUpperCase name;
                classList := [];
                contentEditable := js "inherit";
                dataset := [];
                innerHTML := [] |}.

(** One token of [classList.add]: appended unless already there. *)
Definition addToken (l : list jsstring) (c : jsstring) : list jsstring :=
  if decide (c ∈ l) then l else l ++ [c].

(** ASCII white space: TAB, LF, FF, CR and SPACE. *)
Definition isASCIIWhitespace (c : N) : bool :=
  (c =? 0x09) || (c =? 0x0A) || (c =? 0x0C) || (c =? 0x0D) || (c =? 0x20).

(** What [classList.add] throws for a token: a SyntaxError when it is
    empty, an InvalidCharacterError when it holds ASCII white space. *)
Definition tokenError (token : jsstring) : option Error :=
  if JsString.isEmpty token then Some SyntaxError
  else if existsb isASCIIWhitespace token then Some InvalidCharacterError
  else None.

(** The tokens are checked, in order, before any is added. *)
Fixpoint checkTokens (tokens : list jsstring) : M unit :=
  match tokens with
  | [] => mret tt
  | token :: rest =>
      match tokenError token with
      | Some e => throw e
      | None => checkTokens rest
      end
  end.

(** [el.classList.add(...tokens)] *)
Definition classList_add (el : ref) (tokens : list jsstring) : M unit :=
  checkTokens tokens;;
  e ← readElement el;
  writeElement el {| tagName := tagName e;
                     classList := foldl addToken (classList e) tokens;
                     contentEditable := contentEditable e;
                     dataset := dataset e;
                     innerHTML := innerHTML e |}.

(** [el.contentEditable = b] *)
Definition set_contentEditable (el : ref) (b : bool) : M unit :=
  e ← readElement el;
  writeElement el {| tagName := tagName e;
                     classList := classList e;
                     contentEditable := if b then js "true" else js "false";
                     dataset := dataset e;
                     innerHTML := innerHTML e |}.

Fixpoint assoc_set (k v : jsstring) (l : list (jsstring * jsstring))
    : list (jsstring * jsstring) :=
  match l with
  | [] => [(k, v)]
  | (k', v') :: l' =>
      if decide (k = k') then (k, v) :: l' else (k', v') :: assoc_set k v l'
  end.

(** [el.dataset[k] = v] *)
Definition set_dataset (el : ref) (k v : jsstring) : M unit :=
  e ← readElement el;
  writeElement el {| tagName := tagName e;
                     classList := classList e;
                     contentEditable := contentEditable e;
                     dataset := assoc_set k v (dataset e);
                     innerHTML := innerHTML e |}.

(** The element [e] with its markup replaced. *)
Definition with_innerHTML (e : HTMLElement) (markup : jsstring)
    : HTMLElement :=
  {| tagName := tagName e;
     classList := classList e;
     contentEditable := contentEditable e;
     dataset := dataset e;
     innerHTML := markup |}.

(** [el.innerHTML] *)
Definition get_innerHTML (el : ref) : M jsstring :=
  e ← readElement el; mret (innerHTML e).

(** [el.innerHTML = markup]: the content becomes the parsed fragment. *)
Definition set_innerHTML (document : Document) (el : ref)
    (markup : jsstring) : M unit :=
  e ← readElement el;
  writeElement el (with_innerHTML e (reparse document markup)).

End DOM.

(** ** The class [Title] *)

(** [static get DEFAULT_PLACEHOLDER()] *)
Definition DEFAULT_PLACEHOLDER : jsstring := js "".

(** [drawView()].  The constructor calls it when [this.api], [this._CSS]
    and [this._placeholder], the fields it reads, have been assigned. *)
Definition drawView (api : API) (_CSS : CSS) (_placeholder : jsstring)
    : M ref :=
  h1 ← DOM.createElement (js "h1");
  DOM.classList_add h1 [css_wrapper _CSS; css_block _CSS];;
  DOM.set_contentEditable h1 true;;
  DOM.set_dataset h1 (js "placeholder") (t (i18n api) _placeholder);;
  mret h1.

(** The fields [i] after [this._data = d]. *)
Definition with_data (i : Title) (d : ref) : Title :=
  {| api := api i;
     _CSS := _CSS i;
     _placeholder := _placeholder i;
     _data := d;
     _element := _element i;
     _preserveBlank := _preserveBlank i |}.

(** [set data(data)]: [data || {}] is [data] itself when given and a new
    empty object otherwise. *)
Definition set_data (document : Document) (this : ref)
    (data : option ref) : M unit :=
  d ← match data with
      | Some r => mret r
      | None => newObject {| text := None |}
      end;
  assign this (λ i, with_data i d);;
  el ← field this _element;
  d ← field this _data;
  o ← readObject d;
  DOM.set_innerHTML document el (JsString.orElse (text o) (js "")).

(** [get data()]: [this._data.text = text] rewrites the one property a
    [TitleData] has; the reference of the internal record is returned. *)
Definition get_data (this : ref) : M ref :=
  el ← field this _element;
  text ← DOM.get_innerHTML el;
  d ← field this _data;
  writeObject d {| text := Some text |};;
  field this _data.

(** [constructor({ data, config, api })].  [c ? c : d] on a string [c]
    without effects is [c || d].  The body assigns the six fields one
    after the other and reads none of them before it is assigned, except
    through [drawView]; the instance enters the store when all six are
    known, before the final [this.data = data]. *)
Definition constructor (document : Document) (data : option ref)
    (config : option TitleConfig) (api : API) : M ref :=
  let _CSS := {| css_block := block (styles api);
                 css_wrapper := js "ce-title" |} in
  p ← member config placeholder;
  let _placeholder := JsString.orElse p DEFAULT_PLACEHOLDER in
  _data ← newObject {| text := None |};
  _element ← drawView api _CSS _placeholder;
  b ← member config preserveBlank;
  let _preserveBlank := match b with Some v => v | None => false end in
  this ← newInstance {| api := api;
                        _CSS := _CSS;
                        _placeholder := _placeholder;
                        _data := _data;
                        _element := _element;
                        _preserveBlank := _preserveBlank |};
  set_data document this data;;
  mret this.

(** [render()] *)
Definition render (this : ref) : M ref := field this _element.

(** [validate(savedData)]; [&&] reads [this._preserveBlank] only when the
    trimmed text is empty. *)
Definition validate (this : ref) (savedData : ref) : M bool :=
  o ← readObject savedData;
  trimmed ← member (text o) JsString.trim;
  c ← and_then (JsString.isEmpty trimmed)
               (flag ← field this _preserveBlank; mret (negb flag));
  if c : bool then mret false else mret true.

(** [save(toolsContent)] *)
Definition save (this : ref) (toolsContent : ref) : M ref :=
  markup ← DOM.get_innerHTML toolsContent;
  newObject {| text := Some markup |}.

(** [onPaste(event)] *)
Definition onPaste (document : Document) (this : ref)
    (event : PasteEvent) : M unit :=
  markup ← DOM.get_innerHTML (data (detail event));
  d ← newObject {| text := Some markup |};
  set_data document this (Some d).

(** [static get conversionConfig()] *)
Definition conversionConfig : ConversionConfig :=
  {| export := js "text"; import := js "text" |}.

(** [static get sanitize()] *)
Definition sanitize : SanitizerConfig := {| sanitize_text := [] |}.

(** [static get pasteConfig()].  The class body declares this getter twice,
    with the same value; the later declaration is the one in effect. *)
Definition pasteConfig : PasteConfig := {| tags := [js "H1"] |}.

(** [static get toolbox()], over the bundled icon asset. *)
Definition toolbox (icon_svg : jsstring) : Toolbox :=
  {| icon := icon_svg; title := js "Title" |}.

(** * Vocabulary of the properties *)

(** A string is blank when it consists of white space only. *)
Definition blank (s : jsstring) : bool := forallb JsString.isWhiteSpace s.

(** The node [drawView] builds. *)
Definition h1_view (api : API) (_CSS : CSS) (_placeholder : jsstring)
    : HTMLElement :=
  {| tagName := js "H1";
     classList := foldl DOM.addToken [] [css_wrapper _CSS; css_block _CSS];
     contentEditable := js "true";
     dataset := [(js "placeholder", t (i18n api) _placeholder)];
     innerHTML := [] |}.

(** The fields the constructor computes from [config] and [api], over the
    record [d] and the element [el]. *)
Definition assembled (config : TitleConfig) (api : API) (d el : ref)
    : Title :=
  {| api := api;
     _CSS := {| css_block := block (styles api);
                css_wrapper := js "ce-title" |};
     _placeholder := default [] (placeholder config);
     _data := d;
     _element := el;
     _preserveBlank := default false (preserveBlank config) |}.

(** The completion of a call that leaves the store as it found it. *)
Definition complete {A : Type} (c : Error + A) (σ : Store) : Completion A :=
  match c with
  | inr a => Return a σ
  | inl e => Throw e σ
  end.

(** [v.text] of the value [v] handed to the constructor or the setter:
    [undefined] when [v] is, or when the property is absent. *)
Definition text_of (σ : Store) (v : option ref) : option jsstring :=
  r ← v; o ← objects σ !! r; text o.

(** A value handed in by the host is [undefined] or an object of the
    store. *)
Definition allocated (σ : Store) (v : option ref) : Prop :=
  match v with
  | Some r => is_Some (objects σ !! r)
  | None => True
  end.

(** ** Sample values *)

(** The HTML fragment algorithms on a small language of markup: text,
    the character references [&amp;] [&lt;] [&gt;] [&nbsp;] [&quot;], an
    ampersand that begins no reference, and properly nested elements
    without attributes of the names in [elementNames].  Text is escaped
    as the serialisation algorithm escapes it, elements still open at the
    end are closed, and a line feed right after [<pre>] is dropped, as
    the parser does.  [normalize] is [None] outside this language. *)
Module HTML.
Local Open Scope N_scope.

Definition isAlpha (c : N) : bool :=
  ((0x41 <=? c) && (c <=? 0x5A)) || ((0x61 <=? c) && (c <=? 0x7A)).

Definition isDigit (c : N) : bool := (0x30 <=? c) && (c <=? 0x39).

Definition toLower (c : N) : N :=
  if (0x41 <=? c) && (c <=? 0x5A) then c + 0x20 else c.

(** Escaping a code unit of a text node. *)
Definition escape (c : N) : jsstring :=
  if c =? 0x26 then js "&amp;"
  else if c =? 0xA0 then js "&nbsp;"
  else if c =? 0x3C then js "&lt;"
  else if c =? 0x3E then js "&gt;"
  else [c].

Definition elementNames : list jsstring :=
  [js "b"; js "i"; js "em"; js "strong"; js "u"; js "code"; js "span";
   js "mark"; js "pre"].

Definition references : list (jsstring * N) :=
  [(js "amp", 0x26); (js "lt", 0x3C); (js "gt", 0x3E); (js "nbsp", 0xA0);
   (js "quot", 0x22)].

Fixpoint reference (name : jsstring) (l : list (jsstring * N)) : option N :=
  match l with
  | [] => None
  | (n, c) :: l' => if decide (n = name) then Some c else reference name l'
  end.

(** The states of the tokenizer that the language needs, with the name
    read so far. *)
Inductive Mode : Type :=
| Data
| TagOpen (name : jsstring)
| EndTagOpen (name : jsstring)
| Reference (name : jsstring).

(** The serialisation so far, the open elements, innermost first, whether
    a line feed is to be dropped, and the tokenizer state. *)
Record State : Type := mkState {
  out : jsstring;
  open : list jsstring;
  skipLF : bool;
  mode : Mode
}.

Definition closeAll (names : list jsstring) : jsstring :=
  concat (map (λ n, js "</" ++ n ++ js ">") names).

(** A code unit in the data state. *)
Definition data_step (st : State) (c : N) : option State :=
  if c =? 0x3C then Some (mkState (out st) (open st) false (TagOpen []))
  else if c =? 0x26 then Some (mkState (out st) (open st) false (Reference []))
  else if (c =? 0x00) || (c =? 0x0D) then None
  else if skipLF st && (c =? 0x0A)
  then Some (mkState (out st) (open st) false Data)
  else Some (mkState (out st ++ escape c) (open st) false Data).

Definition step (st : State) (c : N) : option State :=
  match mode st with
  | Data => data_step st c
  | TagOpen name =>
      if (c =? 0x2F) && JsString.isEmpty name
      then Some (mkState (out st) (open st) false (EndTagOpen []))
      else if isAlpha c || (isDigit c && negb (JsString.isEmpty name))
      then Some (mkState (out st) (open st) false (TagOpen (name ++ [toLower c])))
      else if (c =? 0x3E) && bool_decide (name ∈ elementNames)
      then Some (mkState (out st ++ js "<" ++ name ++ js ">")
                         (name :: open st)
                         (bool_decide (name = js "pre")) Data)
      else None
  | EndTagOpen name =>
      if isAlpha c || (isDigit c && negb (JsString.isEmpty name))
      then Some (mkState (out st) (open st) false
                         (EndTagOpen (name ++ [toLower c])))
      else if c =? 0x3E
      then match open st with
           | top :: rest =>
               if bool_decide (top = name)
               then Some (mkState (out st ++ js "</" ++ name ++ js ">")
                                  rest false Data)
               else None
           | [] => None
           end
      else None
  | Reference name =>
      if isAlpha c || isDigit c
      then Some (mkState (out st) (open st) false (Reference (name ++ [c])))
      else if c =? 0x3B
      then match reference name references with
           | Some r => Some (mkState (out st ++ escape r) (open st) false Data)
           | None => None
           end
      else if JsString.isEmpty name && negb (c =? 0x23)
      then data_step (mkState (out st ++ js "&amp;") (open st) false Data) c
      else None
  end.

Fixpoint run (st : State) (s : jsstring) : option State :=
  match s with
  | [] => Some st
  | c :: s' =>
      match step st c with
      | Some st' => run st' s'
      | None => None
      end
  end.

Definition finish (st : State) : option jsstring :=
  match mode st with
  | Data => Some (out st ++ closeAll (open st))
  | Reference [] => Some (out st ++ js "&amp;" ++ closeAll (open st))
  | _ => None
  end.

Definition normalize (s : jsstring) : option jsstring :=
  match run (mkState [] [] false Data) s with
  | Some st => finish st
  | None => None
  end.

End HTML.

(** A document that reparses the markup of the language above as the
    browser does and leaves any other markup as it is written. *)
Definition html_document : Document :=
  {| reparse := λ markup, default markup (HTML.normalize markup);
     reparse_empty := eq_refl |}.

Definition host_api : API :=
  {| styles := {| block := js "cdx-block" |}; i18n := {| t := λ key, key |} |}.

(** A host whose block class is no class token. *)
Definition spaced_api : API :=
  {| styles := {| block := js "a b" |}; i18n := {| t := λ key, key |} |}.

Definition no_options : TitleConfig :=
  {| placeholder := None; preserveBlank := None |}.

Definition empty_store : Store :=
  {| elements := []; objects := []; instances := [] |}.

(** Two nodes: one edited to [Hello] behind the setter's back, one that
    holds a pasted title. *)
Definition sample_view : HTMLElement :=
  h1_view host_api (_CSS (assembled no_options host_api 0 0)) [].

Definition sample_node : HTMLElement :=
  DOM.with_innerHTML sample_view (js "Hello").

Definition sample_pasted : HTMLElement :=
  DOM.with_innerHTML sample_view (js "Pasted Title").

(** Block 0 owns node 0 and record 0, which is stale; block 1 owns node 1
    and record 3.  Record 1 is blank and record 2 has no [text]. *)
Definition sample_store : Store :=
  {| elements := [sample_node; sample_pasted];
     objects := [ {| text := Some (js "<b>Hi</b>") |};
                  {| text := Some (js "  ") |};
                  {| text := None |};
                  {| text := Some (js "Pasted Title") |} ];
     instances := [ assembled no_options host_api 0 0;
                    assembled no_options host_api 3 1 ] |}.

Definition sample_paste : PasteEvent := {| detail := {| data := 1 |} |}.

(** Markup the parser does not give back as written: text with a bare
    ampersand, held by record 0 of [ampersand_store], and a [pre] that
    begins with a line feed, the content of node 1 of [pre_store]. *)
Definition ampersand_store : Store :=
  set_objects sample_store [ {| text := Some (js "a & b") |} ].

Definition pre_markup : jsstring := js "<pre>" ++ [10%N] ++ js "x</pre>".

Definition pre_store : Store :=
  set_elements sample_store
    [sample_node; DOM.with_innerHTML sample_view pre_markup].

(** ** Stores the host can reach *)

(** Every instance's record and element are objects of the store. *)
Definition live (σ : Store) : Prop :=
  Forall (λ inst, _data inst < length (objects σ)
                  ∧ _element inst < length (elements σ))
         (instances σ).

(** One step of the host: a call of the class that returns, the creation
    of a record or of a node by the host, or new content for a node,
    assigned as markup.  The host hands the constructor a record it
    holds. *)
Inductive host_step (document : Document) (σ σ' : Store) : Prop :=
| step_constructor (data : option ref) (config : option TitleConfig)
    (api : API) (this : ref) :
    allocated σ data →
    constructor document data config api σ = Return this σ' →
    host_step document σ σ'
| step_render (this node : ref) :
    render this σ = Return node σ' → host_step document σ σ'
| step_validate (this savedData : ref) (b : bool) :
    validate this savedData σ = Return b σ' → host_step document σ σ'
| step_save (this node saved : ref) :
    save this node σ = Return saved σ' → host_step document σ σ'
| step_onPaste (this : ref) (event : PasteEvent) :
    onPaste document this event σ = Return tt σ' → host_step document σ σ'
| step_get_data (this d : ref) :
    get_data this σ = Return d σ' → host_step document σ σ'
| step_set_data (this : ref) (v : option ref) :
    set_data document this v σ = Return tt σ' → host_step document σ σ'
| step_record (o : TitleData) (r : ref) :
    newObject o σ = Return r σ' → host_step document σ σ'
| step_node (e : HTMLElement) (el : ref) :
    newElement e σ = Return el σ' → host_step document σ σ'
| step_edit (el : ref) (markup : jsstring) :
    DOM.set_innerHTML document el markup σ = Return tt σ' →
    host_step document σ σ'.

(** Any number of steps. *)
Inductive host_steps (document : Document) : Store → Store → Prop :=
| steps_done (σ : Store) : host_steps document σ σ
| steps_next (σ σ' σ'' : Store) :
    host_step document σ σ' → host_steps document σ' σ'' →
    host_steps document σ σ''.

(** What a step may change of what the store already holds: the markup of
    a node and the [_data] field of an instance; records are kept, with
    any content. *)
Definition evolves (σ σ' : Store) : Prop :=
  length (objects σ) ≤ length (objects σ')
  ∧ (∀ el e, elements σ !! el = Some e →
       ∃ e', elements σ' !! el = Some e'
             ∧ e' = DOM.with_innerHTML e (innerHTML e'))
  ∧ (∀ this inst, instances σ !! this = Some inst →
       ∃ inst', instances σ' !! this = Some inst'
                ∧ inst' = with_data inst (_data inst')).

(** The class list [classList.add(wrapper, block)] leaves on a new node. *)
Definition view_classes (c : CSS) : list jsstring :=
  if decide (css_block c = css_wrapper c)
  then [css_wrapper c]
  else [css_wrapper c; css_block c].

(** The store a completion leaves, [σ] when there is none. *)
Definition store_of {A : Type} (c : Completion A) (σ : Store) : Store :=
  match c with
  | Return _ σ' => σ'
  | Throw _ σ' => σ'
  | Stuck => σ
  end.

(** More sample stores: one with a padded and a bare record, the sample
    store after the construction of a third block from record 0, and the
    sample store after a paste into block 0. *)
Definition padded_store : Store :=
  set_objects sample_store
    [ {| text := Some (js " " ++ js "Hi" ++ js "  ") |};
      {| text := Some (js "Hi") |} ].

Definition constructed_store : Store :=
  store_of (constructor html_document (Some 0) (Some no_options) host_api
                        sample_store)
           sample_store.

Definition pasted_store : Store :=
  store_of (onPaste html_document 0 sample_paste sample_store) sample_store.

(** * Properties *)

(** ** Trimming *)

Section Trim.
Import JsString.

Lemma trimStart_nil (s : jsstring) : trimStart s = [] ↔ blank s = true.
Proof.
  induction s as [|c s IH]; simpl; [tauto|].
  destruct (isWhiteSpace c); simpl; [exact IH|].
  split; discriminate.
Qed.

(** What [trimStart] leaves does not begin with white space. *)
Lemma trimStart_head (s : jsstring) (c : N) (s' : jsstring) :
  trimStart s = c :: s' → isWhiteSpace c = false.
Proof.
  induction s as [|a s IH]; simpl; [discriminate|].
  destruct (isWhiteSpace a) eqn:Ha; [exact IH|].
  intros [= <- _]. exact Ha.
Qed.

Lemma blank_app (s1 s2 : jsstring) :
  blank (s1 ++ s2) = blank s1 && blank s2.
Proof. apply forallb_app. Qed.

Lemma blank_rev (s : jsstring) : blank (rev s) = blank s.
Proof.
  induction s as [|c s IH]; simpl; [reflexivity|].
  rewrite blank_app, IH. simpl. rewrite andb_true_r. apply andb_comm.
Qed.

Lemma rev_nil_inv {A : Type} (l : list A) : rev l = [] → l = [].
Proof.
  intros H. apply (f_equal (@rev A)) in H.
  rewrite rev_involutive in H. exact H.
Qed.

(** [s.trim() === ''] exactly for the blank strings. *)
Lemma trim_nil (s : jsstring) : trim s = [] ↔ blank s = true.
Proof.
  unfold trim, trimEnd. rewrite <- trimStart_nil. split.
  - intros H. apply rev_nil_inv in H. apply trimStart_nil in H.
    rewrite blank_rev in H.
    destruct (trimStart s) as [|c s'] eqn:E; [reflexivity|].
    apply trimStart_head in E. simpl in H. rewrite E in H. discriminate.
  - intros ->. reflexivity.
Qed.

Lemma isEmpty_true (s : jsstring) : isEmpty s = true ↔ s = [].
Proof. destruct s; simpl; split; congruence. Qed.

(** [v || ''] is the string itself when there is one. *)
Lemma orElse_empty (v : option jsstring) :
  orElse v (js "") = default [] v.
Proof. destruct v as [[|c s]|]; reflexivity. Qed.

End Trim.

(** ** The store *)

Section StoreLemmas.
Context {A : Type}.
Implicit Types (l : list A) (x y : A).

Lemma lookup_last l x : (l ++ [x]) !! length l = Some x.
Proof. by apply list_lookup_middle. Qed.

Lemma insert_last l x y : <[length l := y]> (l ++ [x]) = l ++ [y].
Proof.
  replace (length l) with (length l + 0) by lia.
  by rewrite insert_app_r.
Qed.

Lemma lookup_snoc_old l x (i : nat) (y : A) :
  l !! i = Some y → (l ++ [x]) !! i = Some y.
Proof. apply lookup_app_l_Some. Qed.

End StoreLemmas.

(** ** Running the primitives *)

Lemma run_bind {A B : Type} (m : M A) (f : A → M B) (σ : Store) :
  (m ≫= f) σ = match m σ with
               | Return a σ' => f a σ'
               | Throw e σ' => Throw e σ'
               | Stuck => Stuck
               end.
Proof. reflexivity. Qed.

Lemma run_ret {A : Type} (a : A) (σ : Store) :
  (mret a : M A) σ = Return a σ.
Proof. reflexivity. Qed.

Lemma run_bind_Return {A B : Type} (m : M A) (f : A → M B)
    (σ σ' : Store) (a : A) :
  m σ = Return a σ' → (m ≫= f) σ = f a σ'.
Proof. intros H. by rewrite run_bind, H. Qed.

Lemma run_readObject (σ : Store) (r : ref) (o : TitleData) :
  objects σ !! r = Some o → readObject r σ = Return o σ.
Proof. unfold readObject. by intros ->. Qed.

Lemma run_writeObject (σ : Store) (r : ref) (o o' : TitleData) :
  objects σ !! r = Some o →
  writeObject r o' σ = Return tt (set_objects σ (<[r := o']> (objects σ))).
Proof. unfold writeObject. by intros ->. Qed.

Lemma run_readElement (σ : Store) (r : ref) (e : HTMLElement) :
  elements σ !! r = Some e → readElement r σ = Return e σ.
Proof. unfold readElement. by intros ->. Qed.

Lemma run_writeElement (σ : Store) (r : ref) (e e' : HTMLElement) :
  elements σ !! r = Some e →
  writeElement r e' σ
  = Return tt (set_elements σ (<[r := e']> (elements σ))).
Proof. unfold writeElement. by intros ->. Qed.

Lemma run_field {A : Type} (σ : Store) (this : ref) (i : Title)
    (f : Title → A) :
  instances σ !! this = Some i → field this f σ = Return (f i) σ.
Proof. unfold field. by intros ->. Qed.

Lemma run_assign (σ : Store) (this : ref) (i : Title) (upd : Title → Title) :
  instances σ !! this = Some i →
  assign this upd σ
  = Return tt (set_instances σ (<[this := upd i]> (instances σ))).
Proof. unfold assign. by intros ->. Qed.

Lemma run_get_innerHTML (σ : Store) (r : ref) (e : HTMLElement) :
  elements σ !! r = Some e → DOM.get_innerHTML r σ = Return (innerHTML e) σ.
Proof.
  intros H. unfold DOM.get_innerHTML.
  by rewrite (run_bind_Return _ _ _ _ _ (run_readElement _ _ _ H)).
Qed.

Lemma run_set_innerHTML (document : Document) (σ : Store) (r : ref)
    (e : HTMLElement) (markup : jsstring) :
  elements σ !! r = Some e →
  DOM.set_innerHTML document r markup σ
  = Return tt (set_elements σ
                 (<[r := DOM.with_innerHTML e (reparse document markup)]>
                    (elements σ))).
Proof.
  intros H. unfold DOM.set_innerHTML.
  rewrite (run_bind_Return _ _ _ _ _ (run_readElement _ _ _ H)).
  by apply run_writeElement with e.
Qed.

(** Symbolic execution: the components of an updated store are computed,
    lookups are resolved from the hypotheses and at freshly allocated
    references, and the binds are stepped through. *)
Ltac store_simpl :=
  cbn [elements objects instances set_elements set_objects set_instances].

Ltac lookup_simpl :=
  repeat first
    [ rewrite lookup_last
    | rewrite insert_last
    | rewrite list_lookup_insert_eq by (eapply lookup_lt_Some; eassumption)
    | match goal with
      | H : ?l !! ?i = Some _ |- context [?l !! ?i] => rewrite H
      end
    | erewrite lookup_snoc_old by eassumption ].

Ltac run :=
  repeat (progress (rewrite ?run_bind, ?run_ret; cbv beta iota;
                    store_simpl; lookup_simpl)).

Lemma run_drawView (σ : Store) (api : API) (_CSS : CSS) (p : jsstring) :
  DOM.tokenError (css_wrapper _CSS) = None →
  DOM.tokenError (css_block _CSS) = None →
  drawView api _CSS p σ
  = Return (length (elements σ))
           (set_elements σ (elements σ ++ [h1_view api _CSS p])).
Proof.
  intros Hw Hb.
  unfold drawView, DOM.createElement, DOM.classList_add, DOM.checkTokens,
    DOM.set_contentEditable, DOM.set_dataset, newElement,
    readElement, writeElement.
  rewrite Hw, Hb. run. reflexivity.
Qed.

(** A block class that is no class token stops [drawView] at
    [classList.add], when the node has been created. *)
Lemma run_drawView_throws (σ : Store) (api : API) (_CSS : CSS)
    (p : jsstring) (err : Error) :
  DOM.tokenError (css_wrapper _CSS) = None →
  DOM.tokenError (css_block _CSS) = Some err →
  ∃ e0, drawView api _CSS p σ
        = Throw err (set_elements σ (elements σ ++ [e0])).
Proof.
  intros Hw Hb.
  unfold drawView, DOM.createElement, DOM.classList_add, DOM.checkTokens,
    newElement.
  rewrite Hw, Hb. eexists. run. reflexivity.
Qed.

(** ** Running the accessors and the constructor *)

Lemma run_set_data_given (document : Document) (σ : Store) (this : ref)
    (inst : Title) (r : ref) (o : TitleData) (e : HTMLElement) :
  instances σ !! this = Some inst →
  objects σ !! r = Some o →
  elements σ !! _element inst = Some e →
  set_data document this (Some r) σ
  = Return tt
      {| elements := <[_element inst :=
                         DOM.with_innerHTML e
                           (reparse document (default [] (text o)))]>
                       (elements σ);
         objects := objects σ;
         instances := <[this := with_data inst r]> (instances σ) |}.
Proof.
  intros Hi Ho He. unfold set_data, assign, field, readObject.
  run. cbn [_element _data with_data]. run.
  rewrite (run_set_innerHTML _ _ _ e) by (store_simpl; exact He).
  by rewrite orElse_empty.
Qed.

Lemma run_set_data_absent (document : Document) (σ : Store) (this : ref)
    (inst : Title) (e : HTMLElement) :
  instances σ !! this = Some inst →
  elements σ !! _element inst = Some e →
  set_data document this None σ
  = Return tt
      {| elements := <[_element inst := DOM.with_innerHTML e []]>
                       (elements σ);
         objects := objects σ ++ [{| text := None |}];
         instances := <[this := with_data inst (length (objects σ))]>
                        (instances σ) |}.
Proof.
  intros Hi He. unfold set_data, newObject, assign, field, readObject.
  run. cbn [_element _data with_data]. run.
  rewrite (run_set_innerHTML _ _ _ e) by (store_simpl; exact He).
  cbn [text JsString.orElse]. change (js "") with (@nil N).
  by rewrite reparse_empty.
Qed.

Lemma placeholder_default (p : option jsstring) :
  JsString.orElse p DEFAULT_PLACEHOLDER = default [] p.
Proof. apply orElse_empty. Qed.

Lemma preserveBlank_default (b : option bool) :
  match b with Some v => v | None => false end = default false b.
Proof. by destruct b. Qed.

Lemma run_constructor_given (document : Document) (σ : Store) (d : ref)
    (o : TitleData) (config : TitleConfig) (api : API) :
  DOM.tokenError (block (styles api)) = None →
  objects σ !! d = Some o →
  let inst := assembled config api d (length (elements σ)) in
  constructor document (Some d) (Some config) api σ
  = Return (length (instances σ))
      {| elements := elements σ ++
           [DOM.with_innerHTML
              (h1_view api (_CSS inst) (_placeholder inst))
              (reparse document (default [] (text o)))];
         objects := objects σ ++ [{| text := None |}];
         instances := instances σ ++ [inst] |}.
Proof.
  intros Hb Ho inst. unfold constructor, member, newObject, newInstance.
  run. rewrite run_drawView by done. run.
  rewrite placeholder_default, preserveBlank_default.
  erewrite run_set_data_given;
    [ | store_simpl; apply lookup_last
      | store_simpl; by apply lookup_snoc_old
      | store_simpl; apply lookup_last ].
  run. cbn [_element]. run. reflexivity.
Qed.

Lemma run_constructor_absent (document : Document) (σ : Store)
    (config : TitleConfig) (api : API) :
  DOM.tokenError (block (styles api)) = None →
  let inst :=
    assembled config api (S (length (objects σ))) (length (elements σ)) in
  constructor document None (Some config) api σ
  = Return (length (instances σ))
      {| elements := elements σ ++
           [h1_view api (_CSS inst) (_placeholder inst)];
         objects := (objects σ ++ [{| text := None |}])
                    ++ [{| text := None |}];
         instances := instances σ ++ [inst] |}.
Proof.
  intros Hb inst. unfold constructor, member, newObject, newInstance.
  run. rewrite run_drawView by done. run.
  rewrite placeholder_default, preserveBlank_default.
  erewrite run_set_data_absent;
    [ | store_simpl; apply lookup_last | store_simpl; apply lookup_last ].
  run. cbn [_element]. run. rewrite length_app, Nat.add_1_r. reflexivity.
Qed.

Lemma run_get_data (σ : Store) (this : ref) (inst : Title)
    (e : HTMLElement) (o : TitleData) :
  instances σ !! this = Some inst →
  elements σ !! _element inst = Some e →
  objects σ !! _data inst = Some o →
  get_data this σ
  = Return (_data inst)
      (set_objects σ (<[_data inst := {| text := Some (innerHTML e) |}]>
                        (objects σ))).
Proof.
  intros Hi He Ho. unfold get_data.
  rewrite (run_bind_Return _ _ _ _ _ (run_field _ _ _ _ Hi)).
  rewrite (run_bind_Return _ _ _ _ _ (run_get_innerHTML _ _ _ He)).
  rewrite (run_bind_Return _ _ _ _ _ (run_field _ _ _ _ Hi)).
  rewrite (run_bind_Return _ _ _ _ _ (run_writeObject _ _ _ _ Ho)).
  by rewrite (run_field _ _ inst) by exact Hi.
Qed.

(** Without a [config] the first property read throws. *)
Lemma run_constructor_no_config (document : Document) (σ : Store)
    (data : option ref) (api : API) :
  constructor document data None api σ = Throw TypeError σ.
Proof. reflexivity. Qed.

(** With a block class that is no class token the constructor throws what
    [classList.add] throws, before an instance exists. *)
Lemma run_constructor_bad_class (document : Document) (σ : Store)
    (data : option ref) (config : TitleConfig) (api : API) (err : Error) :
  DOM.tokenError (block (styles api)) = Some err →
  ∃ σ', constructor document data (Some config) api σ = Throw err σ'
        ∧ instances σ' = instances σ.
Proof.
  intros Hb. unfold constructor, member, newObject.
  run.
  edestruct (run_drawView_throws
               (set_objects σ (objects σ ++ [{| text := None |}])) api
               {| css_block := block (styles api);
                  css_wrapper := js "ce-title" |}
               (JsString.orElse (placeholder config) DEFAULT_PLACEHOLDER)
               err) as [e0 H]; [done|exact Hb|].
  rewrite H. eexists. split; reflexivity.
Qed.

Lemma run_validate (σ : Store) (this : ref) (inst : Title) (savedData : ref)
    (o : TitleData) :
  instances σ !! this = Some inst →
  objects σ !! savedData = Some o →
  validate this savedData σ
  = complete
      (match text o with
       | Some s =>
           inr (negb (JsString.isEmpty (JsString.trim s)
                      && negb (_preserveBlank inst)))
       | None => inl TypeError
       end) σ.
Proof.
  intros Hi Ho. unfold validate, readObject, member. run.
  destruct (text o) as [s|]; [|reflexivity]. run.
  unfold and_then, field. destruct (JsString.isEmpty _); run.
  - by destruct (_preserveBlank inst).
  - reflexivity.
Qed.

Lemma run_save (σ : Store) (this node : ref) (e : HTMLElement) :
  elements σ !! node = Some e →
  save this node σ
  = Return (length (objects σ))
           (set_objects σ (objects σ ++ [{| text := Some (innerHTML e) |}])).
Proof.
  intros He. unfold save.
  by rewrite (run_bind_Return _ _ _ _ _ (run_get_innerHTML _ _ _ He)).
Qed.

(** ** validate *)

(** C1.  For a saved record with a text string [s], [validate] returns a
    boolean, and that boolean is [false] exactly when [s.trim()] is the
    empty string and the instance's [_preserveBlank] is [false]; in every
    other case it is [true]. *)
Theorem validate_blank_rule (σ : Store) (this : ref) (inst : Title)
    (savedData : ref) (s : jsstring) :
  instances σ !! this = Some inst →
  objects σ !! savedData = Some {| text := Some s |} →
  ∃ b : bool,
    validate this savedData σ = Return b σ ∧
    (b = false ↔ JsString.trim s = js "" ∧ _preserveBlank inst = false) ∧
    (b = true ↔ ¬ (JsString.trim s = js "" ∧ _preserveBlank inst = false)).
Proof.
  intros Hi Ho. rewrite (run_validate _ _ _ _ _ Hi Ho). cbn [text complete].
  eexists. split; [reflexivity|].
  change (js "") with (@nil N). rewrite <- isEmpty_true.
  destruct (JsString.isEmpty _), (_preserveBlank inst); cbn;
    intuition congruence.
Qed.

Lemma validate_blank_rule_witness :
  instances sample_store !! 0 = Some (assembled no_options host_api 0 0) ∧
  objects sample_store !! 1 = Some {| text := Some (js "  ") |} ∧
  ∃ b : bool,
    validate 0 1 sample_store = Return b sample_store ∧
    (b = false ↔ JsString.trim (js "  ") = js ""
                 ∧ _preserveBlank (assembled no_options host_api 0 0)
                   = false) ∧
    (b = true ↔ ¬ (JsString.trim (js "  ") = js ""
                   ∧ _preserveBlank (assembled no_options host_api 0 0)
                     = false)).
Proof.
  split; [reflexivity|]. split; [reflexivity|].
  apply (validate_blank_rule sample_store 0 _ 1 (js "  ")); reflexivity.
Defined.

(** White space only counts as blank: with [preserveBlank] off the block
    is discarded. *)
Example validate_spaces :
  validate 0 1 sample_store = Return false sample_store.
Proof. reflexivity. Qed.

(** Text is kept, whatever the flag. *)
Example validate_text :
  validate 0 0 sample_store = Return true sample_store.
Proof. reflexivity. Qed.

(** [validate] answers [false] exactly on the blank strings when
    [preserveBlank] is off. *)
Corollary validate_false_blank (σ : Store) (this : ref) (inst : Title)
    (savedData : ref) (s : jsstring) :
  instances σ !! this = Some inst →
  objects σ !! savedData = Some {| text := Some s |} →
  validate this savedData σ = Return false σ
  ↔ blank s = true ∧ _preserveBlank inst = false.
Proof.
  intros Hi Ho. rewrite (run_validate _ _ _ _ _ Hi Ho). cbn [text complete].
  rewrite <- trim_nil, <- isEmpty_true.
  destruct (JsString.isEmpty _), (_preserveBlank inst); cbn;
    intuition congruence.
Qed.

(** C4.  With a saved record whose [text] is absent, [validate] returns no
    boolean: the call of [trim] on [undefined] throws a TypeError, for any
    instance and before its [_preserveBlank] is looked at. *)
Theorem validate_missing_text (σ : Store) (this savedData : ref) :
  objects σ !! savedData = Some {| text := None |} →
  validate this savedData σ = Throw TypeError σ ∧
  ∀ b σ', validate this savedData σ ≠ Return b σ'.
Proof.
  intros Ho.
  assert (H : validate this savedData σ = Throw TypeError σ).
  { unfold validate, readObject, member. run. reflexivity. }
  rewrite H. split; [reflexivity|discriminate].
Qed.

Lemma validate_missing_text_witness :
  objects sample_store !! 2 = Some {| text := None |} ∧
  validate 0 2 sample_store = Throw TypeError sample_store ∧
  ∀ b σ', validate 0 2 sample_store ≠ Return b σ'.
Proof.
  split; [reflexivity|].
  apply (validate_missing_text sample_store 0 2). reflexivity.
Defined.

(** C10.  [validate] is a function of [savedData.text] and of the
    [_preserveBlank] flag alone: two instances with equal flags, in any two
    stores, whatever their elements and internal records hold, given saved
    records with the same content, complete alike (the same boolean, or the
    same error), and each call leaves its store as it was. *)
Theorem validate_depends_on_text_and_flag (σ1 σ2 : Store) (this1 this2 : ref)
    (inst1 inst2 : Title) (savedData1 savedData2 : ref) (o : TitleData) :
  instances σ1 !! this1 = Some inst1 →
  instances σ2 !! this2 = Some inst2 →
  _preserveBlank inst1 = _preserveBlank inst2 →
  objects σ1 !! savedData1 = Some o →
  objects σ2 !! savedData2 = Some o →
  ∃ c : Error + bool,
    validate this1 savedData1 σ1 = complete c σ1 ∧
    validate this2 savedData2 σ2 = complete c σ2.
Proof.
  intros Hi1 Hi2 Hflag H1 H2.
  rewrite (run_validate _ _ _ _ _ Hi1 H1), (run_validate _ _ _ _ _ Hi2 H2).
  rewrite Hflag. eexists. split; reflexivity.
Qed.

Lemma validate_depends_on_text_and_flag_witness :
  instances sample_store !! 0 = Some (assembled no_options host_api 0 0) ∧
  instances sample_store !! 1 = Some (assembled no_options host_api 3 1) ∧
  _preserveBlank (assembled no_options host_api 0 0)
  = _preserveBlank (assembled no_options host_api 3 1) ∧
  objects sample_store !! 1 = Some {| text := Some (js "  ") |} ∧
  objects sample_store !! 1 = Some {| text := Some (js "  ") |} ∧
  ∃ c : Error + bool,
    validate 0 1 sample_store = complete c sample_store ∧
    validate 1 1 sample_store = complete c sample_store.
Proof.
  do 5 (split; [reflexivity|]).
  apply (validate_depends_on_text_and_flag sample_store sample_store 0 1
           (assembled no_options host_api 0 0)
           (assembled no_options host_api 3 1)
           1 1 {| text := Some (js "  ") |}); reflexivity.
Defined.

(** ** save *)

(** C8.  [save] only reads.  For a node with markup [m] it returns a new
    record [{text: m}]; every element of the store, the node included,
    every record that existed, the block's internal one included, and the
    fields of every instance are as before. *)
Theorem save_only_reads (σ : Store) (this node : ref) (e : HTMLElement)
    (m : jsstring) :
  elements σ !! node = Some e →
  innerHTML e = m →
  ∃ (saved : ref) (σ' : Store),
    save this node σ = Return saved σ' ∧
    objects σ' !! saved = Some {| text := Some m |} ∧
    elements σ' = elements σ ∧
    instances σ' = instances σ ∧
    objects σ' = objects σ ++ [{| text := Some m |}] ∧
    (∀ r o, objects σ !! r = Some o → objects σ' !! r = Some o).
Proof.
  intros He <-. rewrite (run_save _ _ _ _ He).
  do 2 eexists. split; [reflexivity|]. store_simpl.
  repeat split; auto using lookup_last, @lookup_snoc_old.
Qed.

Lemma save_only_reads_witness :
  elements sample_store !! 0 = Some sample_node ∧
  innerHTML sample_node = js "Hello" ∧
  ∃ (saved : ref) (σ' : Store),
    save 0 0 sample_store = Return saved σ' ∧
    objects σ' !! saved = Some {| text := Some (js "Hello") |} ∧
    elements σ' = elements sample_store ∧
    instances σ' = instances sample_store ∧
    objects σ' = objects sample_store ++ [{| text := Some (js "Hello") |}] ∧
    (∀ r o, objects sample_store !! r = Some o → objects σ' !! r = Some o).
Proof.
  split; [reflexivity|]. split; [reflexivity|].
  apply (save_only_reads sample_store 0 0 sample_node (js "Hello"));
    reflexivity.
Defined.

(** ** The data accessors *)

(** C5.  Reading [data] re-derives the text from the live element: whatever
    the internal record held, and however the element came to its markup
    [m], the getter returns the internal record, whose [text] is now [m].
    Elements, instances and the other records are untouched. *)
Theorem get_data_rederives (σ : Store) (this : ref) (inst : Title)
    (e : HTMLElement) (o : TitleData) (m : jsstring) :
  instances σ !! this = Some inst →
  elements σ !! _element inst = Some e →
  innerHTML e = m →
  objects σ !! _data inst = Some o →
  ∃ (d : ref) (σ' : Store),
    get_data this σ = Return d σ' ∧
    d = _data inst ∧
    objects σ' !! d = Some {| text := Some m |} ∧
    elements σ' = elements σ ∧
    instances σ' = instances σ ∧
    (∀ r, r ≠ d → objects σ' !! r = objects σ !! r).
Proof.
  intros Hi He <- Ho. rewrite (run_get_data _ _ _ _ _ Hi He Ho).
  do 2 eexists. split; [reflexivity|]. store_simpl. repeat split.
  - apply list_lookup_insert_eq. by eapply lookup_lt_Some.
  - intros r Hr. by apply list_lookup_insert_ne.
Qed.

Lemma get_data_rederives_witness :
  instances sample_store !! 0 = Some (assembled no_options host_api 0 0) ∧
  elements sample_store !! _element (assembled no_options host_api 0 0)
  = Some sample_node ∧
  innerHTML sample_node = js "Hello" ∧
  objects sample_store !! _data (assembled no_options host_api 0 0)
  = Some {| text := Some (js "<b>Hi</b>") |} ∧
  ∃ (d : ref) (σ' : Store),
    get_data 0 sample_store = Return d σ' ∧
    d = _data (assembled no_options host_api 0 0) ∧
    objects σ' !! d = Some {| text := Some (js "Hello") |} ∧
    elements σ' = elements sample_store ∧
    instances σ' = instances sample_store ∧
    (∀ r, r ≠ d → objects σ' !! r = objects sample_store !! r).
Proof.
  do 4 (split; [reflexivity|]).
  apply (get_data_rederives sample_store 0
           (assembled no_options host_api 0 0) sample_node
           {| text := Some (js "<b>Hi</b>") |} (js "Hello")); reflexivity.
Defined.

(** Markup assigned to the node around the setter is what the getter
    reports next, as the node serialises it. *)
Corollary get_data_after_edit (document : Document) (σ : Store) (this : ref)
    (inst : Title) (e : HTMLElement) (o : TitleData) (m : jsstring) :
  instances σ !! this = Some inst →
  elements σ !! _element inst = Some e →
  objects σ !! _data inst = Some o →
  ∃ σ', (DOM.set_innerHTML document (_element inst) m;;
         d ← get_data this;
         readObject d) σ
        = Return {| text := Some (reparse document m) |} σ'.
Proof.
  intros Hi He Ho.
  rewrite (run_bind_Return _ _ _ _ _ (run_set_innerHTML _ _ _ _ m He)).
  erewrite run_bind_Return;
    [ | apply run_get_data
          with (e := DOM.with_innerHTML e (reparse document m)) (o := o);
        store_simpl; [ exact Hi | | exact Ho ];
        apply list_lookup_insert_eq; by eapply lookup_lt_Some ].
  eexists. apply run_readObject. store_simpl.
  apply list_lookup_insert_eq. by eapply lookup_lt_Some.
Qed.

(** What the sample document makes of some markup. *)
Example html_document_reparse :
  reparse html_document (js "a & b") = js "a &amp; b"
  ∧ reparse html_document (js "<b>Hi") = js "<b>Hi</b>"
  ∧ reparse html_document (js "<b>Hi</b>") = js "<b>Hi</b>"
  ∧ reparse html_document pre_markup = js "<pre>x</pre>"
  ∧ reparse html_document [160%N] = js "&nbsp;".
Proof. repeat split. Qed.

(** C6, counterexample.  The markup of the element after [data := v] is
    not [v.text]: with [v.text = 'a & b'] the element reads
    ['a &amp; b']. *)
Lemma set_data_reparses_ampersand :
  objects ampersand_store !! 0 = Some {| text := Some (js "a & b") |}
  ∧ ∃ (σ' : Store) (e' : HTMLElement),
      set_data html_document 0 (Some 0) ampersand_store = Return tt σ'
      ∧ elements σ' !! 0 = Some e'
      ∧ innerHTML e' = js "a &amp; b"
      ∧ innerHTML e' ≠ js "a & b".
Proof.
  split; [reflexivity|]. do 2 eexists.
  split; [vm_compute; reflexivity|]. split; [reflexivity|].
  split; [reflexivity|]. discriminate.
Qed.

(** C6, amended.  Writing [data := v].  The internal record becomes [v]
    itself when [v] is given, and a new empty record otherwise; the
    element's content becomes the fragment parsed from [v.text] when that
    is present and truthy, so that its markup is the serialisation of that
    fragment, and it becomes empty otherwise.  No other field of the
    instance, no other instance, no other element and no record that
    existed changes. *)
Theorem set_data_overwrites (document : Document) (σ : Store) (this : ref)
    (inst : Title) (v : option ref) (e : HTMLElement) :
  instances σ !! this = Some inst →
  elements σ !! _element inst = Some e →
  allocated σ v →
  ∃ (d : ref) (σ' : Store),
    set_data document this v σ = Return tt σ' ∧
    instances σ' = <[this := with_data inst d]> (instances σ) ∧
    match v with
    | Some r => d = r ∧ objects σ' = objects σ
    | None => objects σ' !! d = Some {| text := None |}
              ∧ objects σ' = objects σ ++ [{| text := None |}]
    end ∧
    elements σ'
    = <[_element inst :=
          DOM.with_innerHTML e
            (if JsString.truthy (text_of σ v)
             then reparse document (default (js "") (text_of σ v))
             else js "")]> (elements σ).
Proof.
  intros Hi He Hv. destruct v as [r|].
  - destruct Hv as [o Ho].
    rewrite (run_set_data_given _ _ _ _ _ _ _ Hi Ho He).
    do 2 eexists. split; [reflexivity|]. store_simpl.
    unfold text_of. cbn [mbind option_bind]. rewrite Ho.
    cbn [mbind option_bind]. repeat split.
    destruct (text o) as [[|c s]|]; cbn [default JsString.truthy
      JsString.isEmpty negb]; by rewrite ?reparse_empty.
  - rewrite (run_set_data_absent _ _ _ _ _ Hi He).
    do 2 eexists. split; [reflexivity|]. store_simpl.
    repeat split. apply lookup_last.
Qed.

Lemma set_data_overwrites_witness :
  instances sample_store !! 0 = Some (assembled no_options host_api 0 0) ∧
  elements sample_store !! _element (assembled no_options host_api 0 0)
  = Some sample_node ∧
  allocated sample_store (Some 0) ∧
  ∃ (d : ref) (σ' : Store),
    set_data html_document 0 (Some 0) sample_store = Return tt σ' ∧
    instances σ'
    = <[0 := with_data (assembled no_options host_api 0 0) d]>
        (instances sample_store) ∧
    (d = 0 ∧ objects σ' = objects sample_store) ∧
    elements σ'
    = <[_element (assembled no_options host_api 0 0) :=
          DOM.with_innerHTML sample_node
            (if JsString.truthy (text_of sample_store (Some 0))
             then reparse html_document
                    (default (js "") (text_of sample_store (Some 0)))
             else js "")]> (elements sample_store).
Proof.
  split; [reflexivity|]. split; [reflexivity|]. split; [by eexists|].
  apply (set_data_overwrites html_document sample_store 0
           (assembled no_options host_api 0 0) (Some 0) sample_node).
  - reflexivity.
  - reflexivity.
  - by eexists.
Defined.

(** Assigning no record empties the element and installs a new empty
    record. *)
Example set_data_undefined :
  ∃ σ', set_data html_document 0 None sample_store = Return tt σ'
        ∧ elements σ' !! 0 = Some (DOM.with_innerHTML sample_node (js ""))
        ∧ (_data <$> instances σ' !! 0) = Some 4
        ∧ objects σ' !! 4 = Some {| text := None |}.
Proof. eexists. split; [vm_compute; reflexivity|]. repeat split. Qed.

(** ** onPaste *)

(** C7, counterexample.  A pasted element whose markup is a [pre] that
    begins with a line feed: after [onPaste], [save] on the rendered node
    returns the markup without the line feed, not the pasted markup. *)
Lemma onPaste_drops_line_feed :
  (innerHTML <$> elements pre_store !! data (detail sample_paste))
  = Some pre_markup
  ∧ ∃ σ' : Store,
      (onPaste html_document 0 sample_paste;;
       node ← render 0;
       saved ← save 0 node;
       o ← readObject saved;
       mret (text o)) pre_store
      = Return (Some (js "<pre>x</pre>")) σ'
      ∧ js "<pre>x</pre>" ≠ pre_markup.
Proof.
  split; [reflexivity|]. eexists.
  split; [vm_compute; reflexivity|]. discriminate.
Qed.

(** C7, amended.  Whatever the element held before, [onPaste(event)] with
    a pasted element of markup [m] replaces the element's content with
    the fragment parsed from [m]; [save] on the rendered node then returns
    a record whose [text] is the serialisation of that fragment, which is
    [m] when [m] reparses to itself. *)
Theorem onPaste_replaces_content (document : Document) (σ : Store)
    (this : ref) (inst : Title) (event : PasteEvent)
    (e pasted : HTMLElement) (m : jsstring) :
  instances σ !! this = Some inst →
  elements σ !! _element inst = Some e →
  elements σ !! data (detail event) = Some pasted →
  innerHTML pasted = m →
  ∃ (σ1 : Store) (node saved : ref) (σ2 : Store),
    onPaste document this event σ = Return tt σ1 ∧
    elements σ1
    = <[_element inst := DOM.with_innerHTML e (reparse document m)]>
        (elements σ) ∧
    render this σ1 = Return node σ1 ∧
    node = _element inst ∧
    save this node σ1 = Return saved σ2 ∧
    objects σ2 !! saved = Some {| text := Some (reparse document m) |} ∧
    (reparse document m = m →
     objects σ2 !! saved = Some {| text := Some m |}).
Proof.
  intros Hi He Hp <-. unfold onPaste.
  rewrite (run_bind_Return _ _ _ _ _ (run_get_innerHTML _ _ _ Hp)).
  unfold newObject at 1. rewrite run_bind. cbv beta iota.
  erewrite run_set_data_given;
    [ | store_simpl; exact Hi | store_simpl; apply lookup_last
      | store_simpl; exact He ].
  store_simpl. cbn [text default].
  set (m' := reparse document (innerHTML pasted)).
  assert (Hnode : <[_element inst := DOM.with_innerHTML e m']> (elements σ)
                  !! _element inst = Some (DOM.with_innerHTML e m')).
  { apply list_lookup_insert_eq. by eapply lookup_lt_Some. }
  assert (Hthis : <[this := with_data inst (length (objects σ))]>
                    (instances σ) !! this
                  = Some (with_data inst (length (objects σ)))).
  { apply list_lookup_insert_eq. by eapply lookup_lt_Some. }
  do 4 eexists. split; [reflexivity|]. store_simpl.
  split; [reflexivity|]. unfold render.
  erewrite run_field by (store_simpl; exact Hthis). cbn [_element with_data].
  split; [reflexivity|]. split; [reflexivity|].
  erewrite run_save by (store_simpl; exact Hnode).
  split; [reflexivity|]. store_simpl.
  match goal with
  | |- ?l = ?r ∧ _ => assert (H : l = r) by apply lookup_last
  end.
  split; [exact H|]. intros E. by rewrite H, E.
Qed.

Lemma onPaste_replaces_content_witness :
  instances sample_store !! 0 = Some (assembled no_options host_api 0 0) ∧
  elements sample_store !! _element (assembled no_options host_api 0 0)
  = Some sample_node ∧
  elements sample_store !! data (detail sample_paste) = Some sample_pasted ∧
  innerHTML sample_pasted = js "Pasted Title" ∧
  ∃ (σ1 : Store) (node saved : ref) (σ2 : Store),
    onPaste html_document 0 sample_paste sample_store = Return tt σ1 ∧
    elements σ1
    = <[_element (assembled no_options host_api 0 0) :=
          DOM.with_innerHTML sample_node
            (reparse html_document (js "Pasted Title"))]>
        (elements sample_store) ∧
    render 0 σ1 = Return node σ1 ∧
    node = _element (assembled no_options host_api 0 0) ∧
    save 0 node σ1 = Return saved σ2 ∧
    objects σ2 !! saved
    = Some {| text := Some (reparse html_document (js "Pasted Title")) |} ∧
    (reparse html_document (js "Pasted Title") = js "Pasted Title" →
     objects σ2 !! saved = Some {| text := Some (js "Pasted Title") |}).
Proof.
  do 4 (split; [reflexivity|]).
  apply (onPaste_replaces_content html_document sample_store 0
           (assembled no_options host_api 0 0) sample_paste
           sample_node sample_pasted (js "Pasted Title")); reflexivity.
Defined.

(** The pasted title of the sample is saved as it was pasted. *)
Example onPaste_title :
  ∃ σ', (onPaste html_document 0 sample_paste;;
         node ← render 0;
         saved ← save 0 node;
         o ← readObject saved;
         mret (text o)) sample_store
        = Return (Some (js "Pasted Title")) σ'.
Proof. eexists. vm_compute. reflexivity. Qed.

(** ** The constructor *)

(** C2, counterexample.  The round trip is not the identity on every
    string: a block constructed with [{text: 'a & b'}] saves
    ['a &amp; b']. *)
Lemma roundtrip_escapes_ampersand :
  objects ampersand_store !! 0 = Some {| text := Some (js "a & b") |}
  ∧ ∃ σ' : Store,
      (this ← constructor html_document (Some 0) (Some no_options) host_api;
       node ← render this;
       saved ← save this node;
       o ← readObject saved;
       mret (text o)) ampersand_store
      = Return (Some (js "a &amp; b")) σ'
      ∧ js "a &amp; b" ≠ js "a & b".
Proof.
  split; [reflexivity|]. eexists.
  split; [vm_compute; reflexivity|]. discriminate.
Qed.

(** C2, amended.  Round trip: a block constructed with initial data
    [{text: s}], for any string [s], by a host whose block class is a
    class token, renders a node on which [save] returns a record whose
    [text] is the serialisation of the fragment parsed from [s]; it is [s]
    for every [s] that reparses to itself. *)
Theorem construct_save_roundtrip (document : Document) (σ : Store)
    (d : ref) (s : jsstring) (config : TitleConfig) (api : API) :
  DOM.tokenError (block (styles api)) = None →
  objects σ !! d = Some {| text := Some s |} →
  ∃ (this : ref) (σ1 : Store) (node saved : ref) (σ2 : Store),
    constructor document (Some d) (Some config) api σ = Return this σ1 ∧
    render this σ1 = Return node σ1 ∧
    save this node σ1 = Return saved σ2 ∧
    objects σ2 !! saved = Some {| text := Some (reparse document s) |} ∧
    (reparse document s = s →
     objects σ2 !! saved = Some {| text := Some s |}).
Proof.
  intros Hb Hd. rewrite (run_constructor_given _ _ _ _ _ _ Hb Hd).
  do 5 eexists. split; [reflexivity|]. unfold render.
  erewrite run_field by (store_simpl; apply lookup_last).
  split; [reflexivity|]. cbn [_element assembled].
  erewrite run_save by (store_simpl; apply lookup_last).
  split; [reflexivity|]. store_simpl.
  match goal with
  | |- ?l = ?r ∧ _ => assert (H : l = r) by apply lookup_last
  end.
  split; [exact H|]. intros E. by rewrite H, E.
Qed.

Lemma construct_save_roundtrip_witness :
  DOM.tokenError (block (styles host_api)) = None ∧
  objects sample_store !! 0 = Some {| text := Some (js "<b>Hi</b>") |} ∧
  ∃ (this : ref) (σ1 : Store) (node saved : ref) (σ2 : Store),
    constructor html_document (Some 0) (Some no_options) host_api
                sample_store
    = Return this σ1 ∧
    render this σ1 = Return node σ1 ∧
    save this node σ1 = Return saved σ2 ∧
    objects σ2 !! saved
    = Some {| text := Some (reparse html_document (js "<b>Hi</b>")) |} ∧
    (reparse html_document (js "<b>Hi</b>") = js "<b>Hi</b>" →
     objects σ2 !! saved = Some {| text := Some (js "<b>Hi</b>") |}).
Proof.
  split; [reflexivity|]. split; [reflexivity|].
  apply (construct_save_roundtrip html_document sample_store 0
           (js "<b>Hi</b>") no_options host_api); reflexivity.
Defined.

(** The round trip as one program, on markup that reparses to itself. *)
Example roundtrip_bold :
  ∃ σ', (this ← constructor html_document (Some 0) (Some no_options)
                            host_api;
         node ← render this;
         saved ← save this node;
         o ← readObject saved;
         mret (text o)) sample_store
        = Return (Some (js "<b>Hi</b>")) σ'.
Proof. eexists. vm_compute. reflexivity. Qed.

(** C3, counterexample.  Without a [config], construction throws at
    [config.placeholder], before anything is allocated. *)
Lemma constructor_without_config_throws :
  constructor html_document None None host_api empty_store
  = Throw TypeError empty_store
  ∧ ¬ ∃ (this : ref) (σ' : Store),
        constructor html_document None None host_api empty_store
        = Return this σ'.
Proof.
  split; [reflexivity|]. intros (this & σ' & H). discriminate H.
Qed.

(** C3, amended.  Given a [config] object and a host whose block class is
    a class token, construction succeeds for every initial data, absent or
    not, and for every choice of present and absent fields of the
    [config]: an absent placeholder becomes the empty string, an absent
    [preserveBlank] becomes [false], and absent data becomes a new empty
    record; data that is given is kept as the internal record.  The
    element is created and holds the fragment parsed from the data's text,
    nothing when there is none. *)
Theorem constructor_defaults (document : Document) (σ : Store)
    (data : option ref) (config : TitleConfig) (api : API) :
  DOM.tokenError (block (styles api)) = None →
  allocated σ data →
  ∃ (this : ref) (σ' : Store) (inst : Title) (e : HTMLElement),
    constructor document data (Some config) api σ = Return this σ' ∧
    instances σ' !! this = Some inst ∧
    _placeholder inst = default (js "") (placeholder config) ∧
    _preserveBlank inst = default false (preserveBlank config) ∧
    match data with
    | Some d => _data inst = d
    | None => objects σ' !! _data inst = Some {| text := None |}
    end ∧
    elements σ' !! _element inst = Some e ∧
    innerHTML e = reparse document (default (js "") (text_of σ data)) ∧
    (text_of σ data = None → innerHTML e = js "").
Proof.
  intros Hb Hd. destruct data as [d|].
  - destruct Hd as [o Ho].
    rewrite (run_constructor_given _ _ _ _ _ _ Hb Ho).
    do 4 eexists. split; [reflexivity|]. store_simpl.
    split; [apply lookup_last|].
    cbn [_placeholder _preserveBlank _data _element assembled].
    do 3 (split; [reflexivity|]). split; [apply lookup_last|].
    unfold text_of. cbn [mbind option_bind]. rewrite Ho.
    cbn [mbind option_bind innerHTML DOM.with_innerHTML].
    split; [reflexivity|]. intros ->. apply reparse_empty.
  - rewrite (run_constructor_absent _ _ _ _ Hb).
    do 4 eexists. split; [reflexivity|]. store_simpl.
    split; [apply lookup_last|].
    cbn [_placeholder _preserveBlank _data _element assembled].
    do 2 (split; [reflexivity|]).
    split; [apply list_lookup_middle; rewrite length_app; simpl; lia|].
    split; [apply lookup_last|].
    cbn [text_of mbind option_bind default innerHTML h1_view].
    split; [|done]. symmetry. apply reparse_empty.
Qed.

Lemma constructor_defaults_witness :
  DOM.tokenError (block (styles host_api)) = None ∧
  allocated empty_store None ∧
  ∃ (this : ref) (σ' : Store) (inst : Title) (e : HTMLElement),
    constructor html_document None (Some no_options) host_api empty_store
    = Return this σ' ∧
    instances σ' !! this = Some inst ∧
    _placeholder inst = default (js "") (placeholder no_options) ∧
    _preserveBlank inst = default false (preserveBlank no_options) ∧
    objects σ' !! _data inst = Some {| text := None |} ∧
    elements σ' !! _element inst = Some e ∧
    innerHTML e
    = reparse html_document (default (js "") (text_of empty_store None)) ∧
    (text_of empty_store None = None → innerHTML e = js "").
Proof.
  split; [reflexivity|]. split; [exact I|].
  apply (constructor_defaults html_document empty_store None no_options
           host_api); [reflexivity|exact I].
Defined.

(** ** The static declarations *)

(** C9.  [conversionConfig] exports and imports through the property
    ['text'], and [pasteConfig.tags] is the one-element list [['H1']]. *)
Theorem static_declarations :
  export conversionConfig = js "text" ∧
  import conversionConfig = js "text" ∧
  tags pasteConfig = [js "H1"].
Proof. repeat split. Qed.

(** The tag [pasteConfig] asks for is the tag of the node [drawView]
    builds. *)
Lemma pasteConfig_matches_view (api : API) (_CSS : CSS) (p : jsstring) :
  tags pasteConfig = [tagName (h1_view api _CSS p)].
Proof. reflexivity. Qed.

(** * Further properties of the class *)

(** ** drawView *)

Lemma view_classes_eq (c : CSS) :
  foldl DOM.addToken [] [css_wrapper c; css_block c] = view_classes c.
Proof.
  unfold view_classes. cbn [foldl]. unfold DOM.addToken.
  destruct (decide (css_wrapper c ∈ [])) as [H|_];
    [by apply not_elem_of_nil in H|]. cbn [app].
  destruct (decide (css_block c ∈ [css_wrapper c])) as [H|H];
    destruct (decide (css_block c = css_wrapper c)) as [E|E];
    try reflexivity.
  - apply list_elem_of_singleton in H. contradiction.
  - exfalso. apply H. apply list_elem_of_singleton. exact E.
Qed.

(** X1.  With class names that are class tokens, [drawView] creates one
    new node and touches nothing else: the node is an [H1], the tag
    [pasteConfig] asks for; it carries the wrapper class and then the
    block class, once when the two coincide; it is editable, its
    placeholder is the host's translation of the placeholder string, and
    it has no content. *)
Theorem drawView_builds_heading (σ : Store) (api : API) (c : CSS)
    (p : jsstring) :
  DOM.tokenError (css_wrapper c) = None →
  DOM.tokenError (css_block c) = None →
  ∃ (node : ref) (σ' : Store) (e : HTMLElement),
    drawView api c p σ = Return node σ' ∧
    elements σ !! node = None ∧
    elements σ' = elements σ ++ [e] ∧
    elements σ' !! node = Some e ∧
    tags pasteConfig = [tagName e] ∧
    classList e = view_classes c ∧
    contentEditable e = js "true" ∧
    dataset e = [(js "placeholder", t (i18n api) p)] ∧
    innerHTML e = js "" ∧
    objects σ' = objects σ ∧
    instances σ' = instances σ.
Proof.
  intros Hw Hb. rewrite (run_drawView _ _ _ _ Hw Hb).
  do 3 eexists. split; [reflexivity|]. store_simpl.
  split; [by apply lookup_ge_None_2|].
  split; [reflexivity|]. split; [apply lookup_last|].
  split; [reflexivity|]. split; [apply view_classes_eq|].
  repeat split.
Qed.

Lemma drawView_builds_heading_witness :
  DOM.tokenError (css_wrapper (_CSS (assembled no_options host_api 0 0)))
  = None ∧
  DOM.tokenError (css_block (_CSS (assembled no_options host_api 0 0)))
  = None ∧
  ∃ (node : ref) (σ' : Store) (e : HTMLElement),
    drawView host_api (_CSS (assembled no_options host_api 0 0)) (js "")
             sample_store = Return node σ' ∧
    elements sample_store !! node = None ∧
    elements σ' = elements sample_store ++ [e] ∧
    elements σ' !! node = Some e ∧
    tags pasteConfig = [tagName e] ∧
    classList e = view_classes (_CSS (assembled no_options host_api 0 0)) ∧
    contentEditable e = js "true" ∧
    dataset e = [(js "placeholder", t (i18n host_api) (js ""))] ∧
    innerHTML e = js "" ∧
    objects σ' = objects sample_store ∧
    instances σ' = instances sample_store.
Proof.
  do 2 (split; [reflexivity|]).
  apply (drawView_builds_heading sample_store host_api
           (_CSS (assembled no_options host_api 0 0)) (js ""));
    reflexivity.
Defined.

(** X18.  A block class that is no class token makes the constructor
    fail even with a [config]: it throws what [classList.add] throws, a
    SyntaxError for the empty string and an InvalidCharacterError for a
    name with white space, and no instance comes to exist. *)
Theorem constructor_rejects_block_class (document : Document) (σ : Store)
    (data : option ref) (config : TitleConfig) (api : API) (err : Error) :
  DOM.tokenError (block (styles api)) = Some err →
  (∃ σ', constructor document data (Some config) api σ = Throw err σ'
         ∧ instances σ' = instances σ)
  ∧ (block (styles api) = js "" → err = SyntaxError)
  ∧ (block (styles api) ≠ js "" → err = InvalidCharacterError).
Proof.
  intros Hb. split; [by apply run_constructor_bad_class|].
  unfold DOM.tokenError in Hb.
  destruct (block (styles api)) as [|c s] eqn:E; cbn [JsString.isEmpty] in Hb.
  - split; [congruence|done].
  - split; [discriminate|]. intros _.
    destruct (existsb _ _); congruence.
Qed.

Lemma constructor_rejects_block_class_witness :
  DOM.tokenError (block (styles spaced_api)) = Some InvalidCharacterError ∧
  (∃ σ', constructor html_document None (Some no_options) spaced_api
                     empty_store
         = Throw InvalidCharacterError σ'
         ∧ instances σ' = instances empty_store)
  ∧ (block (styles spaced_api) = js "" →
     InvalidCharacterError = SyntaxError)
  ∧ (block (styles spaced_api) ≠ js "" →
     InvalidCharacterError = InvalidCharacterError).
Proof.
  split; [reflexivity|].
  apply (constructor_rejects_block_class html_document empty_store None
           no_options spaced_api InvalidCharacterError).
  reflexivity.
Defined.

(** ** What a call that returns has done *)

Ltac lookup_any :=
  repeat first
    [ rewrite lookup_last
    | rewrite insert_last
    | rewrite list_lookup_insert_eq by (eapply lookup_lt_Some; eassumption)
    | match goal with
      | H : ?l !! ?i = _ |- context [?l !! ?i] => rewrite H
      end
    | erewrite lookup_snoc_old by eassumption ].

Ltac run_any :=
  repeat (progress (rewrite ?run_bind, ?run_ret; cbv beta iota;
                    store_simpl; lookup_any)).

Lemma set_innerHTML_Return (document : Document) (σ σ' : Store) (el : ref)
    (markup : jsstring) :
  DOM.set_innerHTML document el markup σ = Return tt σ' →
  ∃ e m, elements σ !! el = Some e
         ∧ σ' = set_elements σ
                  (<[el := DOM.with_innerHTML e m]> (elements σ)).
Proof.
  destruct (elements σ !! el) as [e|] eqn:He.
  - rewrite (run_set_innerHTML _ _ _ _ _ He). intros [= <-].
    by exists e, (reparse document markup).
  - unfold DOM.set_innerHTML, readElement. run_any. discriminate.
Qed.

Lemma set_data_Return (document : Document) (σ σ' : Store) (this : ref)
    (v : option ref) :
  set_data document this v σ = Return tt σ' →
  ∃ (inst : Title) (e : HTMLElement) (d : ref) (markup : jsstring),
    instances σ !! this = Some inst
    ∧ elements σ !! _element inst = Some e
    ∧ elements σ'
      = <[_element inst := DOM.with_innerHTML e markup]> (elements σ)
    ∧ instances σ' = <[this := with_data inst d]> (instances σ)
    ∧ (objects σ' = objects σ
       ∨ objects σ' = objects σ ++ [{| text := None |}])
    ∧ d < length (objects σ').
Proof.
  destruct (instances σ !! this) as [inst|] eqn:Hi; cycle 1.
  { unfold set_data, assign, newObject. destruct v; run_any; discriminate. }
  destruct (elements σ !! _element inst) as [e|] eqn:He; cycle 1.
  { unfold set_data, assign, field, newObject, readObject.
    destruct v as [r|]; run_any; cbn [_data _element with_data]; run_any.
    - destruct (objects σ !! r); run_any;
        unfold DOM.set_innerHTML, readElement; run_any; discriminate.
    - unfold DOM.set_innerHTML, readElement; run_any; discriminate. }
  destruct v as [r|].
  - destruct (objects σ !! r) as [o|] eqn:Ho.
    + rewrite (run_set_data_given _ _ _ _ _ _ _ Hi Ho He). intros [= <-].
      exists inst, e, r, (reparse document (default [] (text o))).
      store_simpl.
      repeat split; auto. by eapply lookup_lt_Some.
    + unfold set_data, assign, field, readObject.
      run_any; cbn [_data _element with_data]; run_any. discriminate.
  - rewrite (run_set_data_absent _ _ _ _ _ Hi He). intros [= <-].
    exists inst, e, (length (objects σ)), []. store_simpl.
    repeat split; auto. rewrite length_app. simpl. lia.
Qed.

Lemma get_data_Return (σ σ' : Store) (this d : ref) :
  get_data this σ = Return d σ' →
  ∃ (inst : Title) (e : HTMLElement),
    instances σ !! this = Some inst
    ∧ elements σ !! _element inst = Some e
    ∧ d = _data inst
    ∧ σ' = set_objects σ
             (<[d := {| text := Some (innerHTML e) |}]> (objects σ)).
Proof.
  destruct (instances σ !! this) as [inst|] eqn:Hi; cycle 1.
  { unfold get_data, field. run_any. discriminate. }
  destruct (elements σ !! _element inst) as [e|] eqn:He; cycle 1.
  { unfold get_data, field, DOM.get_innerHTML, readElement. run_any.
    discriminate. }
  destruct (objects σ !! _data inst) as [o|] eqn:Ho.
  - rewrite (run_get_data _ _ _ _ _ Hi He Ho). intros [= <- <-].
    by exists inst, e.
  - unfold get_data, field, DOM.get_innerHTML, readElement, writeObject.
    run_any. discriminate.
Qed.

Lemma save_Return (σ σ' : Store) (this node saved : ref) :
  save this node σ = Return saved σ' →
  ∃ e, elements σ !! node = Some e
       ∧ saved = length (objects σ)
       ∧ σ' = set_objects σ
                (objects σ ++ [{| text := Some (innerHTML e) |}]).
Proof.
  destruct (elements σ !! node) as [e|] eqn:He.
  - rewrite (run_save _ _ _ _ He). intros [= <- <-]. by exists e.
  - unfold save, DOM.get_innerHTML, readElement. run_any. discriminate.
Qed.

Lemma render_Return (σ σ' : Store) (this node : ref) :
  render this σ = Return node σ' →
  ∃ inst, instances σ !! this = Some inst
          ∧ node = _element inst ∧ σ' = σ.
Proof.
  unfold render, field. destruct (instances σ !! this) as [inst|];
    [|discriminate]. intros [= <- <-]. by exists inst.
Qed.

Lemma validate_Return (σ σ' : Store) (this savedData : ref) (b : bool) :
  validate this savedData σ = Return b σ' → σ' = σ.
Proof.
  unfold validate, readObject, member, and_then, field, throw.
  destruct (objects σ !! savedData) as [o|] eqn:Ho; run_any;
    [|discriminate].
  destruct (text o) as [s|]; run_any; [|discriminate].
  destruct (JsString.isEmpty _); run_any.
  - destruct (instances σ !! this) as [inst|]; run_any; [|discriminate].
    destruct (negb _); run_any; congruence.
  - congruence.
Qed.

Lemma onPaste_Return (document : Document) (σ σ' : Store) (this : ref)
    (event : PasteEvent) :
  onPaste document this event σ = Return tt σ' →
  ∃ pasted,
    elements σ !! data (detail event) = Some pasted
    ∧ set_data document this (Some (length (objects σ)))
        (set_objects σ
           (objects σ ++ [{| text := Some (innerHTML pasted) |}]))
      = Return tt σ'.
Proof.
  destruct (elements σ !! data (detail event)) as [pasted|] eqn:Hp.
  - unfold onPaste.
    rewrite (run_bind_Return _ _ _ _ _ (run_get_innerHTML _ _ _ Hp)).
    unfold newObject at 1. rewrite run_bind. cbv beta iota.
    intros H. by exists pasted.
  - unfold onPaste, DOM.get_innerHTML, readElement. run_any. discriminate.
Qed.

Lemma constructor_Return (document : Document) (σ σ' : Store)
    (data : option ref) (config : option TitleConfig) (api : API)
    (this : ref) :
  allocated σ data →
  constructor document data config api σ = Return this σ' →
  ∃ (cfg : TitleConfig) (d : ref) (markup : jsstring),
    config = Some cfg
    ∧ this = length (instances σ)
    ∧ instances σ'
      = instances σ ++ [assembled cfg api d (length (elements σ))]
    ∧ elements σ'
      = elements σ ++
          [DOM.with_innerHTML
             (h1_view api (_CSS (assembled cfg api d 0))
                      (_placeholder (assembled cfg api d 0))) markup]
    ∧ (objects σ' = objects σ ++ [{| text := None |}]
       ∨ objects σ' = (objects σ ++ [{| text := None |}])
                      ++ [{| text := None |}])
    ∧ d < length (objects σ').
Proof.
  intros Hd. destruct config as [cfg|]; [|discriminate].
  destruct (DOM.tokenError (block (styles api))) as [err|] eqn:Hb.
  { destruct (run_constructor_bad_class document σ data cfg api err Hb)
      as (σ1 & H & _). rewrite H. discriminate. }
  destruct data as [d|].
  - destruct Hd as [o Ho].
    rewrite (run_constructor_given _ _ _ _ _ _ Hb Ho).
    intros [= <- <-].
    exists cfg, d, (reparse document (default [] (text o))). store_simpl.
    repeat split; auto.
    rewrite length_app. apply lookup_lt_Some in Ho. lia.
  - rewrite (run_constructor_absent _ _ _ _ Hb). intros [= <- <-].
    exists cfg, (S (length (objects σ))), []. store_simpl.
    repeat split; auto. rewrite !length_app. simpl. lia.
Qed.

(** ** What every step keeps *)

Lemma node_kept (x : HTMLElement) :
  x = DOM.with_innerHTML x (innerHTML x).
Proof. by destruct x. Qed.

Lemma instance_kept (i : Title) : i = with_data i (_data i).
Proof. by destruct i. Qed.

Lemma nodes_kept_insert (l : list HTMLElement) (el : ref) (e : HTMLElement)
    (m : jsstring) (r : ref) (x : HTMLElement) :
  l !! el = Some e → l !! r = Some x →
  ∃ x', <[el := DOM.with_innerHTML e m]> l !! r = Some x'
        ∧ x' = DOM.with_innerHTML x (innerHTML x').
Proof.
  intros He Hx. destruct (decide (el = r)) as [->|Hne].
  - rewrite list_lookup_insert_eq by (by eapply lookup_lt_Some).
    eexists. split; [reflexivity|]. rewrite He in Hx. by injection Hx as <-.
  - rewrite list_lookup_insert_ne by done.
    exists x. split; [done|apply node_kept].
Qed.

Lemma instances_kept_insert (l : list Title) (this : ref) (inst : Title)
    (d : ref) (r : ref) (x : Title) :
  l !! this = Some inst → l !! r = Some x →
  ∃ x', <[this := with_data inst d]> l !! r = Some x'
        ∧ x' = with_data x (_data x').
Proof.
  intros Hi Hx. destruct (decide (this = r)) as [->|Hne].
  - rewrite list_lookup_insert_eq by (by eapply lookup_lt_Some).
    eexists. split; [reflexivity|]. rewrite Hi in Hx. by injection Hx as <-.
  - rewrite list_lookup_insert_ne by done.
    exists x. split; [done|apply instance_kept].
Qed.

Lemma evolves_refl (σ : Store) : evolves σ σ.
Proof.
  split; [done|]. split.
  - intros el e He. exists e. split; [done|apply node_kept].
  - intros this inst Hi. exists inst. split; [done|apply instance_kept].
Qed.

Lemma evolves_trans (σ1 σ2 σ3 : Store) :
  evolves σ1 σ2 → evolves σ2 σ3 → evolves σ1 σ3.
Proof.
  intros (Hl1 & He1 & Hi1) (Hl2 & He2 & Hi2). split; [lia|]. split.
  - intros el e H. destruct (He1 _ _ H) as (e' & H' & E1).
    destruct (He2 _ _ H') as (e'' & H'' & E2). exists e''.
    split; [done|]. destruct e, e', e''; unfold DOM.with_innerHTML in *; cbn in *;
      congruence.
  - intros this inst H. destruct (Hi1 _ _ H) as (i' & H' & E1).
    destruct (Hi2 _ _ H') as (i'' & H'' & E2). exists i''.
    split; [done|]. destruct inst, i', i''; unfold with_data in *; cbn in *; congruence.
Qed.

Lemma evolves_set_data (document : Document) (σ σ' : Store) (this : ref)
    (v : option ref) :
  set_data document this v σ = Return tt σ' → evolves σ σ'.
Proof.
  intros H. apply set_data_Return in H
    as (inst & e & d & m & Hi & He & Ee & Ei & Ho & _).
  unfold evolves. rewrite Ee, Ei.
  split; [destruct Ho as [->| ->]; rewrite ?length_app; lia|]. split.
  - intros el x Hx. by eapply nodes_kept_insert.
  - intros r x Hx. by eapply instances_kept_insert.
Qed.

Lemma evolves_grow (σ σ' : Store) (le : list HTMLElement) (li : list Title) :
  length (objects σ) ≤ length (objects σ') →
  elements σ' = elements σ ++ le →
  instances σ' = instances σ ++ li →
  evolves σ σ'.
Proof.
  intros Hl Ee Ei. unfold evolves. rewrite Ee, Ei. split; [done|]. split.
  - intros el e He. exists e.
    split; [by apply lookup_app_l_Some|apply node_kept].
  - intros this inst Hi. exists inst.
    split; [by apply lookup_app_l_Some|apply instance_kept].
Qed.

Lemma evolves_objects (σ : Store) (l : list TitleData) :
  length (objects σ) ≤ length l → evolves σ (set_objects σ l).
Proof.
  intros Hl. apply evolves_grow with [] []; store_simpl;
    [done|by rewrite app_nil_r..].
Qed.

Lemma evolves_step (document : Document) (σ σ' : Store) :
  host_step document σ σ' → evolves σ σ'.
Proof.
  intros [data config api this Hd H | this node H | this r b H
         | this node saved H | this event H | this d H | this v H
         | o r H | e el H | el m H].
  - apply (constructor_Return _ _ _ _ _ _ _ Hd) in H
      as (cfg & d & m & _ & _ & Ei & Ee & Ho & _).
    eapply evolves_grow; [|exact Ee|exact Ei].
    destruct Ho as [->| ->]; rewrite !length_app; lia.
  - apply render_Return in H as (_ & _ & _ & ->). apply evolves_refl.
  - apply validate_Return in H as ->. apply evolves_refl.
  - apply save_Return in H as (e & _ & _ & ->).
    apply evolves_objects. rewrite length_app. lia.
  - apply onPaste_Return in H as (pasted & _ & H).
    eapply evolves_trans; [|exact (evolves_set_data _ _ _ _ _ H)].
    apply evolves_objects. rewrite length_app. lia.
  - apply get_data_Return in H as (inst & e & _ & _ & _ & ->).
    apply evolves_objects. by rewrite length_insert.
  - by eapply evolves_set_data.
  - injection H as _ <-. apply evolves_objects. rewrite length_app. lia.
  - injection H as _ <-.
    apply evolves_grow with [e] []; store_simpl;
      [done|done|by rewrite app_nil_r].
  - apply set_innerHTML_Return in H as (e & m' & He & ->).
    split; [done|]. split; store_simpl.
    + intros r x Hx. by eapply nodes_kept_insert.
    + intros this inst Hi. exists inst. split; [done|apply instance_kept].
Qed.

Lemma evolves_steps (document : Document) (σ σ' : Store) :
  host_steps document σ σ' → evolves σ σ'.
Proof.
  induction 1 as [σ|σ σ' σ'' Hstep _ IH]; [apply evolves_refl|].
  eapply evolves_trans; [by eapply evolves_step|exact IH].
Qed.

(** ** Instances stay live *)

Lemma live_lookup (σ : Store) (this : ref) (inst : Title) :
  live σ → instances σ !! this = Some inst →
  _data inst < length (objects σ) ∧ _element inst < length (elements σ).
Proof. intros H Hi. exact (proj1 (Forall_lookup _ _) H _ _ Hi). Qed.

Lemma live_same (σ σ' : Store) :
  live σ →
  length (objects σ) ≤ length (objects σ') →
  length (elements σ) ≤ length (elements σ') →
  instances σ' = instances σ →
  live σ'.
Proof.
  unfold live. intros H Ho He ->. eapply Forall_impl; [exact H|].
  cbn. intros inst [? ?]. lia.
Qed.

Lemma live_insert (σ σ' : Store) (this : ref) (inst : Title) (d : ref) :
  live σ →
  length (objects σ) ≤ length (objects σ') →
  length (elements σ) ≤ length (elements σ') →
  instances σ !! this = Some inst →
  d < length (objects σ') →
  instances σ' = <[this := with_data inst d]> (instances σ) →
  live σ'.
Proof.
  intros H Ho He Hi Hd Ei. unfold live. rewrite Ei.
  apply Forall_insert.
  - eapply Forall_impl; [exact H|]. cbn. intros x [? ?]. lia.
  - destruct (live_lookup _ _ _ H Hi). cbn [_data _element with_data]. lia.
Qed.

Lemma live_snoc (σ σ' : Store) (inst : Title) :
  live σ →
  length (objects σ) ≤ length (objects σ') →
  length (elements σ) ≤ length (elements σ') →
  _data inst < length (objects σ') →
  _element inst < length (elements σ') →
  instances σ' = instances σ ++ [inst] →
  live σ'.
Proof.
  intros H Ho He Hd Hel Ei. unfold live. rewrite Ei. apply Forall_app.
  split.
  - eapply Forall_impl; [exact H|]. cbn. intros x [? ?]. lia.
  - by repeat constructor.
Qed.

Lemma live_set_data (document : Document) (σ σ' : Store) (this : ref)
    (v : option ref) :
  live σ → set_data document this v σ = Return tt σ' → live σ'.
Proof.
  intros Hl H. apply set_data_Return in H
    as (inst & e & d & m & Hi & He & Ee & Ei & Ho & Hd).
  eapply live_insert; [exact Hl| | |exact Hi|exact Hd|exact Ei].
  - destruct Ho as [->| ->]; rewrite ?length_app; lia.
  - by rewrite Ee, length_insert.
Qed.

Lemma live_step (document : Document) (σ σ' : Store) :
  live σ → host_step document σ σ' → live σ'.
Proof.
  intros Hl [data config api this Hd H | this node H | this r b H
            | this node saved H | this event H | this d H | this v H
            | o r H | e el H | el m H].
  - apply (constructor_Return _ _ _ _ _ _ _ Hd) in H
      as (cfg & d & m & _ & _ & Ei & Ee & Ho & Hlt).
    eapply live_snoc; [exact Hl| | | | |exact Ei].
    + destruct Ho as [->| ->]; rewrite !length_app; lia.
    + rewrite Ee, length_app. lia.
    + exact Hlt.
    + rewrite Ee, length_app. cbn. lia.
  - by apply render_Return in H as (_ & _ & _ & ->).
  - by apply validate_Return in H as ->.
  - apply save_Return in H as (e & _ & _ & ->).
    eapply live_same; [exact Hl|store_simpl..]; [|done|done].
    rewrite length_app. lia.
  - apply onPaste_Return in H as (pasted & _ & H).
    eapply live_set_data; [|exact H].
    eapply live_same; [exact Hl|store_simpl..]; [|done|done].
    rewrite length_app. lia.
  - apply get_data_Return in H as (inst & e & _ & _ & _ & ->).
    eapply live_same; [exact Hl|store_simpl..]; [|done|done].
    by rewrite length_insert.
  - by eapply live_set_data.
  - injection H as _ <-.
    eapply live_same; [exact Hl|store_simpl..]; [|done|done].
    rewrite length_app. lia.
  - injection H as _ <-.
    eapply live_same; [exact Hl|store_simpl..]; [done| |done].
    rewrite length_app. lia.
  - apply set_innerHTML_Return in H as (e & m' & He & ->).
    eapply live_same; [exact Hl|store_simpl..]; [done| |done].
    by rewrite length_insert.
Qed.

(** ** trim, as validate uses it *)

Section TrimFacts.
Import JsString.

Lemma trimStart_split (s : jsstring) :
  ∃ p, s = p ++ trimStart s ∧ blank p = true.
Proof.
  induction s as [|c s (p & E & Hp)]; [by exists []|]. cbn [trimStart].
  destruct (isWhiteSpace c) eqn:Hc.
  - exists (c :: p). split; [cbn; congruence|]. cbn. by rewrite Hc.
  - by exists [].
Qed.

Lemma trimEnd_split (s : jsstring) :
  ∃ q, s = trimEnd s ++ q ∧ blank q = true.
Proof.
  unfold trimEnd. destruct (trimStart_split (rev s)) as (p & E & Hp).
  exists (rev p). split; [|by rewrite blank_rev].
  rewrite <- rev_app_distr, <- E. by rewrite rev_involutive.
Qed.

Lemma trimStart_app_blank (p s : jsstring) :
  blank p = true → trimStart (p ++ s) = trimStart s.
Proof.
  induction p as [|c p IH]; [done|]. cbn.
  destruct (isWhiteSpace c); [|discriminate]. exact IH.
Qed.

Lemma trimStart_app (s q : jsstring) :
  trimStart (s ++ q) = if blank s then trimStart q else trimStart s ++ q.
Proof.
  induction s as [|c s IH]; [done|]. cbn.
  destruct (isWhiteSpace c); [exact IH|done].
Qed.

Lemma trimEnd_app_blank (s q : jsstring) :
  blank q = true → trimEnd (s ++ q) = trimEnd s.
Proof.
  intros Hq. unfold trimEnd. rewrite rev_app_distr.
  rewrite trimStart_app_blank; [done|by rewrite blank_rev].
Qed.

Lemma trimStart_blank (s : jsstring) : blank s = true → trimStart s = [].
Proof. apply trimStart_nil. Qed.

(** Blank padding around a string does not survive [trim]. *)
Lemma trim_padding (p s q : jsstring) :
  blank p = true → blank q = true → trim (p ++ s ++ q) = trim s.
Proof.
  intros Hp Hq. unfold trim. rewrite (trimStart_app_blank _ _ Hp).
  rewrite trimStart_app. destruct (blank s) eqn:Hs.
  - by rewrite (trimStart_blank _ Hq), (trimStart_blank _ Hs).
  - by apply trimEnd_app_blank.
Qed.

Lemma trimEnd_last (s : jsstring) (c : N) :
  last (trimEnd s) = Some c → isWhiteSpace c = false.
Proof.
  unfold trimEnd. destruct (trimStart (rev s)) as [|a l] eqn:E;
    [discriminate|].
  apply trimStart_head in E. cbn [rev]. rewrite last_snoc.
  by intros [= <-].
Qed.

Lemma trim_head (s : jsstring) (c : N) :
  head (trim s) = Some c → isWhiteSpace c = false.
Proof.
  unfold trim. destruct (trimEnd_split (trimStart s)) as (q & E & _).
  destruct (trimEnd (trimStart s)) as [|a l]; [discriminate|].
  intros [= <-]. by apply trimStart_head in E.
Qed.

End TrimFacts.

(** X2.  [trim], the one string operation of [validate]: it removes a
    white-space prefix and a white-space suffix and nothing else, and what
    is left neither begins nor ends with white space. *)
Theorem trim_removes_padding_only (s : jsstring) :
  ∃ p q : jsstring,
    s = p ++ JsString.trim s ++ q
    ∧ blank p = true ∧ blank q = true
    ∧ (∀ c, head (JsString.trim s) = Some c →
            JsString.isWhiteSpace c = false)
    ∧ (∀ c, last (JsString.trim s) = Some c →
            JsString.isWhiteSpace c = false).
Proof.
  destruct (trimStart_split s) as (p & Ep & Hp).
  destruct (trimEnd_split (JsString.trimStart s)) as (q & Eq & Hq).
  exists p, q. repeat split; try done.
  - unfold JsString.trim. by rewrite <- Eq.
  - apply trim_head.
  - apply trimEnd_last.
Qed.

(** X3.  White space around the saved text does not change the verdict of
    [validate]: a text and the same text with blank padding are both kept
    or both discarded. *)
Theorem validate_ignores_padding (σ : Store) (this : ref) (inst : Title)
    (r1 r2 : ref) (p s q : jsstring) :
  instances σ !! this = Some inst →
  objects σ !! r1 = Some {| text := Some (p ++ s ++ q) |} →
  objects σ !! r2 = Some {| text := Some s |} →
  blank p = true → blank q = true →
  validate this r1 σ = validate this r2 σ.
Proof.
  intros Hi H1 H2 Hp Hq.
  rewrite (run_validate _ _ _ _ _ Hi H1), (run_validate _ _ _ _ _ Hi H2).
  cbn [text]. by rewrite trim_padding.
Qed.

Lemma validate_ignores_padding_witness :
  instances padded_store !! 0 = Some (assembled no_options host_api 0 0) ∧
  objects padded_store !! 0
  = Some {| text := Some (js " " ++ js "Hi" ++ js "  ") |} ∧
  objects padded_store !! 1 = Some {| text := Some (js "Hi") |} ∧
  blank (js " ") = true ∧ blank (js "  ") = true ∧
  validate 0 0 padded_store = validate 0 1 padded_store.
Proof.
  do 5 (split; [reflexivity|]).
  apply (validate_ignores_padding padded_store
           0 (assembled no_options host_api 0 0) 0 1
           (js " ") (js "Hi") (js "  ")); reflexivity.
Defined.

(** ** How the calls compose *)

(** X4.  [validate] never throws on what [save] returns: for any node,
    saving and validating yields a boolean, [false] exactly when the
    node's markup is blank and [preserveBlank] is off. *)
Theorem validate_after_save (σ : Store) (this : ref) (inst : Title)
    (node : ref) (e : HTMLElement) :
  instances σ !! this = Some inst →
  elements σ !! node = Some e →
  ∃ (b : bool) (σ' : Store),
    (saved ← save this node; validate this saved) σ = Return b σ'
    ∧ (b = false ↔ blank (innerHTML e) = true ∧ _preserveBlank inst = false).
Proof.
  intros Hi He.
  rewrite (run_bind_Return _ _ _ _ _ (run_save _ this _ _ He)).
  erewrite run_validate;
    [|store_simpl; exact Hi|store_simpl; apply lookup_last].
  cbn [text complete]. do 2 eexists. split; [reflexivity|].
  rewrite <- trim_nil, <- isEmpty_true.
  destruct (JsString.isEmpty _), (_preserveBlank inst); cbn;
    intuition congruence.
Qed.

Lemma validate_after_save_witness :
  instances sample_store !! 0 = Some (assembled no_options host_api 0 0) ∧
  elements sample_store !! 0 = Some sample_node ∧
  ∃ (b : bool) (σ' : Store),
    (saved ← save 0 0; validate 0 saved) sample_store = Return b σ'
    ∧ (b = false ↔ blank (innerHTML sample_node) = true
                   ∧ _preserveBlank (assembled no_options host_api 0 0)
                     = false).
Proof.
  do 2 (split; [reflexivity|]).
  apply (validate_after_save sample_store 0
           (assembled no_options host_api 0 0) 0 sample_node); reflexivity.
Defined.

(** X5.  Reading [data] twice: the second read returns the same record and
    leaves the store exactly as the first read left it. *)
Theorem get_data_twice (σ : Store) (this : ref) (inst : Title)
    (e : HTMLElement) (o : TitleData) :
  instances σ !! this = Some inst →
  elements σ !! _element inst = Some e →
  objects σ !! _data inst = Some o →
  ∃ (d : ref) (σ' : Store),
    get_data this σ = Return d σ' ∧ get_data this σ' = Return d σ'.
Proof.
  intros Hi He Ho. rewrite (run_get_data _ _ _ _ _ Hi He Ho).
  do 2 eexists. split; [reflexivity|].
  erewrite run_get_data;
    [ |store_simpl; exact Hi|store_simpl; exact He
      |store_simpl; apply list_lookup_insert_eq; by eapply lookup_lt_Some].
  store_simpl. by rewrite list_insert_insert_eq.
Qed.

Lemma get_data_twice_witness :
  instances sample_store !! 0 = Some (assembled no_options host_api 0 0) ∧
  elements sample_store !! _element (assembled no_options host_api 0 0)
  = Some sample_node ∧
  objects sample_store !! _data (assembled no_options host_api 0 0)
  = Some {| text := Some (js "<b>Hi</b>") |} ∧
  ∃ (d : ref) (σ' : Store),
    get_data 0 sample_store = Return d σ' ∧ get_data 0 σ' = Return d σ'.
Proof.
  do 3 (split; [reflexivity|]).
  apply (get_data_twice sample_store 0 (assembled no_options host_api 0 0)
           sample_node {| text := Some (js "<b>Hi</b>") |}); reflexivity.
Defined.

(** X6.  Writing [data := v] and reading it back returns a record whose
    [text] is a string: the serialisation of the fragment parsed from
    [v.text] when that is a string, and [''] when [v] or its [text] is
    absent or empty.  When [v] is given it is [v] itself that is returned,
    its [text] rewritten; otherwise it is a record that did not exist
    before. *)
Theorem set_data_then_get_data (document : Document) (σ : Store)
    (this : ref) (inst : Title) (e : HTMLElement) (v : option ref) :
  instances σ !! this = Some inst →
  elements σ !! _element inst = Some e →
  allocated σ v →
  ∃ (d : ref) (σ' : Store),
    (set_data document this v;; get_data this) σ = Return d σ'
    ∧ objects σ' !! d
      = Some {| text := Some (if JsString.truthy (text_of σ v)
                              then reparse document
                                     (default (js "") (text_of σ v))
                              else js "") |}
    ∧ match v with Some r => d = r | None => objects σ !! d = None end.
Proof.
  intros Hi He Hv.
  assert (Hel : ∀ m, <[_element inst := DOM.with_innerHTML e m]>
                       (elements σ) !! _element inst
                     = Some (DOM.with_innerHTML e m)).
  { intros m. apply list_lookup_insert_eq. by eapply lookup_lt_Some. }
  assert (Hin : ∀ d, <[this := with_data inst d]> (instances σ) !! this
                     = Some (with_data inst d)).
  { intros d. apply list_lookup_insert_eq. by eapply lookup_lt_Some. }
  destruct v as [r|].
  - destruct Hv as [o Ho].
    rewrite (run_bind_Return _ _ _ _ _
               (run_set_data_given _ _ _ _ _ _ _ Hi Ho He)).
    erewrite run_get_data;
      [ |store_simpl; apply Hin|store_simpl; apply Hel
        |store_simpl; exact Ho].
    do 2 eexists. split; [reflexivity|]. store_simpl.
    cbn [_data with_data innerHTML DOM.with_innerHTML].
    split; [|done]. unfold text_of. cbn [mbind option_bind]. rewrite Ho.
    cbn [mbind option_bind].
    rewrite list_lookup_insert_eq by (by eapply lookup_lt_Some).
    destruct (text o) as [[|c s]|]; cbn [default JsString.truthy
      JsString.isEmpty negb]; by rewrite ?reparse_empty.
  - rewrite (run_bind_Return _ _ _ _ _
               (run_set_data_absent _ _ _ _ _ Hi He)).
    erewrite run_get_data;
      [ |store_simpl; apply Hin|store_simpl; apply Hel
        |store_simpl; apply lookup_last].
    do 2 eexists. split; [reflexivity|]. store_simpl.
    cbn [_data with_data innerHTML DOM.with_innerHTML].
    split; [|by apply lookup_ge_None_2].
    by rewrite insert_last, lookup_last.
Qed.

Lemma set_data_then_get_data_witness :
  instances sample_store !! 0 = Some (assembled no_options host_api 0 0) ∧
  elements sample_store !! _element (assembled no_options host_api 0 0)
  = Some sample_node ∧
  allocated sample_store (Some 2) ∧
  ∃ (d : ref) (σ' : Store),
    (set_data html_document 0 (Some 2);; get_data 0) sample_store
    = Return d σ'
    ∧ objects σ' !! d
      = Some {| text := Some (if JsString.truthy
                                   (text_of sample_store (Some 2))
                              then reparse html_document
                                     (default (js "")
                                        (text_of sample_store (Some 2)))
                              else js "") |}
    ∧ d = 2.
Proof.
  do 2 (split; [reflexivity|]). split; [by eexists|].
  apply (set_data_then_get_data html_document sample_store 0
           (assembled no_options host_api 0 0) sample_node (Some 2));
    [reflexivity|reflexivity|by eexists].
Defined.

(** X7.  The record handed to the constructor stays the block's record:
    after markup [m] has been assigned to the node, reading [data] returns
    that very record, rewritten to the node's markup, the serialisation of
    the fragment parsed from [m]. *)
Theorem getter_writes_to_host_record (document : Document) (σ : Store)
    (d : ref) (o : TitleData) (config : TitleConfig) (api : API)
    (m : jsstring) :
  DOM.tokenError (block (styles api)) = None →
  objects σ !! d = Some o →
  ∃ σ' : Store,
    (this ← constructor document (Some d) (Some config) api;
     node ← render this;
     DOM.set_innerHTML document node m;;
     get_data this) σ = Return d σ'
    ∧ objects σ' !! d = Some {| text := Some (reparse document m) |}.
Proof.
  intros Hb Ho. rewrite (run_bind_Return _ _ _ _ _
                           (run_constructor_given _ _ _ _ _ _ Hb Ho)).
  unfold render.
  erewrite run_bind_Return;
    [|apply run_field; store_simpl; apply lookup_last].
  cbn [_element assembled].
  erewrite run_bind_Return;
    [|apply run_set_innerHTML; store_simpl; apply lookup_last].
  store_simpl. rewrite insert_last.
  erewrite run_get_data;
    [ |store_simpl; apply lookup_last|store_simpl; apply lookup_last
      |store_simpl; by apply lookup_snoc_old].
  eexists. split; [reflexivity|]. store_simpl.
  cbn [_data assembled innerHTML DOM.with_innerHTML].
  apply list_lookup_insert_eq. rewrite length_app.
  apply lookup_lt_Some in Ho. lia.
Qed.

Lemma getter_writes_to_host_record_witness :
  DOM.tokenError (block (styles host_api)) = None ∧
  objects sample_store !! 1 = Some {| text := Some (js "  ") |} ∧
  ∃ σ' : Store,
    (this ← constructor html_document (Some 1) (Some no_options) host_api;
     node ← render this;
     DOM.set_innerHTML html_document node (js "a & b");;
     get_data this) sample_store = Return 1 σ'
    ∧ objects σ' !! 1
      = Some {| text := Some (reparse html_document (js "a & b")) |}.
Proof.
  do 2 (split; [reflexivity|]).
  apply (getter_writes_to_host_record html_document sample_store 1
           {| text := Some (js "  ") |} no_options host_api (js "a & b"));
    reflexivity.
Defined.

Lemma run_onPaste (document : Document) (σ : Store) (this : ref)
    (inst : Title) (event : PasteEvent) (e pasted : HTMLElement) :
  instances σ !! this = Some inst →
  elements σ !! _element inst = Some e →
  elements σ !! data (detail event) = Some pasted →
  onPaste document this event σ
  = Return tt
      {| elements := <[_element inst :=
                         DOM.with_innerHTML e
                           (reparse document (innerHTML pasted))]>
                       (elements σ);
         objects := objects σ ++ [{| text := Some (innerHTML pasted) |}];
         instances := <[this := with_data inst (length (objects σ))]>
                        (instances σ) |}.
Proof.
  intros Hi He Hp. unfold onPaste.
  rewrite (run_bind_Return _ _ _ _ _ (run_get_innerHTML _ _ _ Hp)).
  unfold newObject at 1. rewrite run_bind. cbv beta iota.
  erewrite run_set_data_given;
    [ |store_simpl; exact Hi|store_simpl; apply lookup_last
      |store_simpl; exact He].
  reflexivity.
Qed.

(** X8.  A paste gives the block a record of its own: after [onPaste] the
    record the block held before is never written again by the getter;
    markup assigned to the node later reaches only the new record. *)
Theorem onPaste_detaches_record (document : Document) (σ : Store)
    (this : ref) (inst : Title) (event : PasteEvent)
    (e pasted : HTMLElement) (o : TitleData) (m : jsstring) :
  instances σ !! this = Some inst →
  elements σ !! _element inst = Some e →
  elements σ !! data (detail event) = Some pasted →
  objects σ !! _data inst = Some o →
  ∃ (d : ref) (σ' : Store),
    (onPaste document this event;;
     DOM.set_innerHTML document (_element inst) m;;
     get_data this) σ = Return d σ'
    ∧ objects σ !! d = None
    ∧ objects σ' !! d = Some {| text := Some (reparse document m) |}
    ∧ objects σ' !! _data inst = Some o.
Proof.
  intros Hi He Hp Ho.
  assert (Hlt : _data inst < length (objects σ)) by by eapply lookup_lt_Some.
  assert (Hel : ∀ x, <[_element inst := x]> (elements σ) !! _element inst
                     = Some x).
  { intros x. apply list_lookup_insert_eq. by eapply lookup_lt_Some. }
  assert (Hin : ∀ x, <[this := x]> (instances σ) !! this = Some x).
  { intros x. apply list_lookup_insert_eq. by eapply lookup_lt_Some. }
  rewrite (run_bind_Return _ _ _ _ _
             (run_onPaste _ _ _ _ _ _ _ Hi He Hp)).
  rewrite run_bind.
  erewrite run_set_innerHTML by (store_simpl; apply Hel).
  cbv beta iota. store_simpl. rewrite list_insert_insert_eq.
  erewrite run_get_data;
    [ |store_simpl; apply Hin|store_simpl; apply Hel
      |store_simpl; apply lookup_last].
  do 2 eexists. split; [reflexivity|]. store_simpl.
  cbn [_data with_data innerHTML DOM.with_innerHTML].
  split; [by apply lookup_ge_None_2|]. rewrite insert_last.
  split; [apply lookup_last|by apply lookup_snoc_old].
Qed.

Lemma onPaste_detaches_record_witness :
  instances sample_store !! 0 = Some (assembled no_options host_api 0 0) ∧
  elements sample_store !! _element (assembled no_options host_api 0 0)
  = Some sample_node ∧
  elements sample_store !! data (detail sample_paste) = Some sample_pasted ∧
  objects sample_store !! _data (assembled no_options host_api 0 0)
  = Some {| text := Some (js "<b>Hi</b>") |} ∧
  ∃ (d : ref) (σ' : Store),
    (onPaste html_document 0 sample_paste;;
     DOM.set_innerHTML html_document
       (_element (assembled no_options host_api 0 0)) (js "<b>Edited");;
     get_data 0) sample_store = Return d σ'
    ∧ objects sample_store !! d = None
    ∧ objects σ' !! d
      = Some {| text := Some (reparse html_document (js "<b>Edited")) |}
    ∧ objects σ' !! _data (assembled no_options host_api 0 0)
      = Some {| text := Some (js "<b>Hi</b>") |}.
Proof.
  do 4 (split; [reflexivity|]).
  apply (onPaste_detaches_record html_document sample_store 0
           (assembled no_options host_api 0 0) sample_paste
           sample_node sample_pasted {| text := Some (js "<b>Hi</b>") |}
           (js "<b>Edited")); reflexivity.
Defined.

(** X9.  The life of a block, from construction to the host's decision:
    whatever the initial data, once markup [m] has been assigned to the
    node, [save] on the rendered node returns the node's markup [m'], the
    serialisation of the fragment parsed from [m], and [validate] keeps
    the block unless [m'] is blank and the configured [preserveBlank] is
    absent or [false]. *)
Theorem edited_block_is_saved_and_judged (document : Document) (σ : Store)
    (data : option ref) (config : TitleConfig) (api : API) (m : jsstring) :
  DOM.tokenError (block (styles api)) = None →
  allocated σ data →
  ∃ σ' : Store,
    (this ← constructor document data (Some config) api;
     node ← render this;
     DOM.set_innerHTML document node m;;
     saved ← save this node;
     keep ← validate this saved;
     o ← readObject saved;
     mret (text o, keep)) σ
    = Return (Some (reparse document m),
              negb (blank (reparse document m)
                    && negb (default false (preserveBlank config))))
             σ'.
Proof.
  intros Hb Hd.
  assert (H : ∃ (inst : Title) (e : HTMLElement) (σ1 : Store),
             constructor document data (Some config) api σ
             = Return (length (instances σ)) σ1
             ∧ instances σ1 !! length (instances σ) = Some inst
             ∧ _element inst = length (elements σ)
             ∧ _preserveBlank inst = default false (preserveBlank config)
             ∧ elements σ1 !! length (elements σ) = Some e).
  { destruct data as [d|].
    - destruct Hd as [o Ho].
      rewrite (run_constructor_given _ _ _ _ _ _ Hb Ho).
      do 3 eexists. split; [reflexivity|]. store_simpl.
      split; [apply lookup_last|]. do 2 (split; [reflexivity|]).
      apply lookup_last.
    - rewrite (run_constructor_absent _ _ _ _ Hb).
      do 3 eexists. split; [reflexivity|]. store_simpl.
      split; [apply lookup_last|]. do 2 (split; [reflexivity|]).
      apply lookup_last. }
  destruct H as (inst & e & σ1 & Hc & Hi & Hel & Hpb & He).
  rewrite (run_bind_Return _ _ _ _ _ Hc). unfold render.
  rewrite (run_bind_Return _ _ _ _ _ (run_field _ _ _ _ Hi)), Hel.
  rewrite (run_bind_Return _ _ _ _ _ (run_set_innerHTML _ _ _ _ m He)).
  set (m' := reparse document m).
  erewrite run_bind_Return;
    [|apply run_save with (e := DOM.with_innerHTML e m'); store_simpl;
      apply list_lookup_insert_eq; by eapply lookup_lt_Some].
  rewrite run_bind.
  erewrite run_validate;
    [|store_simpl; exact Hi|store_simpl; apply lookup_last].
  cbn [text complete innerHTML DOM.with_innerHTML]. cbv beta iota.
  rewrite run_bind. unfold readObject. store_simpl. rewrite lookup_last.
  rewrite run_ret. eexists. rewrite Hpb. cbn [text].
  replace (JsString.isEmpty (JsString.trim m')) with (blank m'); [done|].
  destruct (blank m') eqn:Hbl.
  - symmetry. apply isEmpty_true, trim_nil. exact Hbl.
  - destruct (JsString.isEmpty (JsString.trim m')) eqn:E; [|done].
    apply isEmpty_true, trim_nil in E. congruence.
Qed.

Lemma edited_block_is_saved_and_judged_witness :
  DOM.tokenError (block (styles host_api)) = None ∧
  allocated sample_store (Some 0) ∧
  ∃ σ' : Store,
    (this ← constructor html_document (Some 0) (Some no_options) host_api;
     node ← render this;
     DOM.set_innerHTML html_document node [160%N];;
     saved ← save this node;
     keep ← validate this saved;
     o ← readObject saved;
     mret (text o, keep)) sample_store
    = Return (Some (reparse html_document [160%N]),
              negb (blank (reparse html_document [160%N])
                    && negb (default false (preserveBlank no_options))))
             σ'.
Proof.
  split; [reflexivity|]. split; [by eexists|].
  apply (edited_block_is_saved_and_judged html_document sample_store
           (Some 0) no_options host_api [160%N]);
    [reflexivity|by eexists].
Defined.

(** A no-break space assigned to the node is saved as [&nbsp;], which is
    not blank: the block is kept. *)
Example no_break_space_is_kept :
  ∃ σ', (this ← constructor html_document (Some 0) (Some no_options)
                            host_api;
         node ← render this;
         DOM.set_innerHTML html_document node [160%N];;
         saved ← save this node;
         keep ← validate this saved;
         o ← readObject saved;
         mret (text o, keep)) sample_store
        = Return (Some (js "&nbsp;"), true) σ'.
Proof. eexists. vm_compute. reflexivity. Qed.

(** ** The constructor, further *)

Lemma run_constructor (document : Document) (σ : Store)
    (data : option ref) (config : TitleConfig) (api : API) :
  DOM.tokenError (block (styles api)) = None →
  allocated σ data →
  constructor document data (Some config) api σ
  = Return (length (instances σ))
      {| elements := elements σ ++
           [DOM.with_innerHTML
              (h1_view api (_CSS (assembled config api 0 0))
                       (_placeholder (assembled config api 0 0)))
              (reparse document (default [] (text_of σ data)))];
         objects := (objects σ ++ [{| text := None |}])
                    ++ match data with
                       | Some _ => []
                       | None => [{| text := None |}]
                       end;
         instances := instances σ ++
           [assembled config api
              (default (S (length (objects σ))) data)
              (length (elements σ))] |}.
Proof.
  intros Hb Hd. destruct data as [d|].
  - destruct Hd as [o Ho].
    rewrite (run_constructor_given _ _ _ _ _ _ Hb Ho).
    unfold text_of. cbn [mbind option_bind default]. rewrite Ho.
    by rewrite app_nil_r.
  - rewrite (run_constructor_absent _ _ _ _ Hb).
    cbn [text_of mbind option_bind default]. by rewrite reparse_empty.
Qed.

(** X10.  The node of a new block, for a host whose block class is a
    class token: an [H1] with the class ['ce-title'] and the host's block
    class, editable, whose placeholder is the host's translation of
    [config.placeholder], or of the empty string when that option is
    absent or empty. *)
Theorem constructor_draws_view (document : Document) (σ : Store)
    (data : option ref) (config : TitleConfig) (api : API) :
  DOM.tokenError (block (styles api)) = None →
  allocated σ data →
  ∃ (this : ref) (σ' : Store) (inst : Title) (e : HTMLElement),
    constructor document data (Some config) api σ = Return this σ'
    ∧ instances σ' !! this = Some inst
    ∧ elements σ' !! _element inst = Some e
    ∧ tagName e = js "H1"
    ∧ classList e
      = view_classes {| css_block := block (styles api);
                        css_wrapper := js "ce-title" |}
    ∧ contentEditable e = js "true"
    ∧ dataset e
      = [(js "placeholder",
          t (i18n api) (default (js "") (placeholder config)))].
Proof.
  intros Hb Hd. rewrite (run_constructor _ _ _ _ _ Hb Hd).
  do 4 eexists. split; [reflexivity|]. store_simpl.
  split; [apply lookup_last|]. cbn [_element assembled].
  split; [apply lookup_last|].
  cbn [tagName classList contentEditable dataset DOM.with_innerHTML h1_view
       _CSS _placeholder assembled].
  split; [reflexivity|]. split; [apply view_classes_eq|]. by split.
Qed.

Lemma constructor_draws_view_witness :
  DOM.tokenError (block (styles host_api)) = None ∧
  allocated empty_store None ∧
  ∃ (this : ref) (σ' : Store) (inst : Title) (e : HTMLElement),
    constructor html_document None (Some no_options) host_api empty_store
    = Return this σ'
    ∧ instances σ' !! this = Some inst
    ∧ elements σ' !! _element inst = Some e
    ∧ tagName e = js "H1"
    ∧ classList e
      = view_classes {| css_block := block (styles host_api);
                        css_wrapper := js "ce-title" |}
    ∧ contentEditable e = js "true"
    ∧ dataset e
      = [(js "placeholder",
          t (i18n host_api) (default (js "") (placeholder no_options)))].
Proof.
  split; [reflexivity|]. split; [exact I|].
  apply (constructor_draws_view html_document empty_store None no_options
           host_api); [reflexivity|exact I].
Defined.

(** X11.  A construction that returns has only added to the store: the
    new instance and its node did not exist before, so no two blocks share
    a node, and every record, node and instance that existed, the record
    handed in as initial data included, is as it was. *)
Theorem constructor_only_adds (document : Document) (σ σ' : Store)
    (data : option ref) (config : option TitleConfig) (api : API)
    (this : ref) :
  allocated σ data →
  constructor document data config api σ = Return this σ' →
  instances σ !! this = None
  ∧ (∃ inst : Title,
       instances σ' !! this = Some inst
       ∧ elements σ !! _element inst = None
       ∧ is_Some (elements σ' !! _element inst))
  ∧ (∀ r o, objects σ !! r = Some o → objects σ' !! r = Some o)
  ∧ (∀ r e, elements σ !! r = Some e → elements σ' !! r = Some e)
  ∧ (∀ r i, instances σ !! r = Some i → instances σ' !! r = Some i).
Proof.
  intros Hd H. apply (constructor_Return _ _ _ _ _ _ _ Hd) in H
    as (cfg & d & m & _ & -> & Ei & Ee & Ho & _).
  rewrite Ei, Ee. split; [by apply lookup_ge_None_2|]. split.
  - eexists. split; [apply lookup_last|]. cbn [_element assembled].
    split; [by apply lookup_ge_None_2|]. rewrite lookup_last. by eexists.
  - split; [|split]; intros r x Hx; try by apply lookup_app_l_Some.
    destruct Ho as [->| ->]; repeat apply lookup_app_l_Some; exact Hx.
Qed.

Lemma constructor_only_adds_witness :
  allocated sample_store (Some 0) ∧
  constructor html_document (Some 0) (Some no_options) host_api sample_store
  = Return 2 constructed_store ∧
  instances sample_store !! 2 = None
  ∧ (∃ inst : Title,
       instances constructed_store !! 2 = Some inst
       ∧ elements sample_store !! _element inst = None
       ∧ is_Some (elements constructed_store !! _element inst))
  ∧ (∀ r o, objects sample_store !! r = Some o →
            objects constructed_store !! r = Some o)
  ∧ (∀ r e, elements sample_store !! r = Some e →
            elements constructed_store !! r = Some e)
  ∧ (∀ r i, instances sample_store !! r = Some i →
            instances constructed_store !! r = Some i).
Proof.
  split; [by eexists|]. split; [reflexivity|].
  apply (constructor_only_adds html_document sample_store constructed_store
           (Some 0) (Some no_options) host_api 2); [by eexists|reflexivity].
Defined.

(** ** Any sequence of calls *)

(** X12.  On a store where every block's record and node exist, the calls
    on a block complete: [render] and the getter return, the setter
    accepts every value the host holds, and [onPaste] accepts every event
    whose element exists. *)
Theorem calls_complete (document : Document) (σ : Store) (this : ref)
    (inst : Title) :
  live σ →
  instances σ !! this = Some inst →
  (∃ node, render this σ = Return node σ)
  ∧ (∃ d σ', get_data this σ = Return d σ')
  ∧ (∀ v, allocated σ v → ∃ σ', set_data document this v σ = Return tt σ')
  ∧ (∀ event pasted, elements σ !! data (detail event) = Some pasted →
       ∃ σ', onPaste document this event σ = Return tt σ').
Proof.
  intros Hl Hi. destruct (live_lookup _ _ _ Hl Hi) as [Hd He].
  apply lookup_lt_is_Some_2 in Hd as [o Ho].
  apply lookup_lt_is_Some_2 in He as [e He].
  split; [|split; [|split]].
  - eexists. unfold render. by apply run_field.
  - do 2 eexists. by eapply run_get_data.
  - intros [r|] Hv.
    + destruct Hv as [o' Ho']. eexists. by eapply run_set_data_given.
    + eexists. by eapply run_set_data_absent.
  - intros event pasted Hp. eexists. by eapply run_onPaste.
Qed.

Lemma sample_store_live : live sample_store.
Proof. unfold live. cbn. repeat constructor. Defined.

Lemma calls_complete_witness :
  live sample_store ∧
  instances sample_store !! 0 = Some (assembled no_options host_api 0 0) ∧
  (∃ node, render 0 sample_store = Return node sample_store)
  ∧ (∃ d σ', get_data 0 sample_store = Return d σ')
  ∧ (∀ v, allocated sample_store v →
          ∃ σ', set_data html_document 0 v sample_store = Return tt σ')
  ∧ (∀ event pasted,
       elements sample_store !! data (detail event) = Some pasted →
       ∃ σ', onPaste html_document 0 event sample_store = Return tt σ').
Proof.
  split; [exact sample_store_live|]. split; [reflexivity|].
  apply (calls_complete html_document sample_store 0
           (assembled no_options host_api 0 0)).
  - exact sample_store_live.
  - reflexivity.
Defined.

(** X13.  Every block's record and node exist after any sequence of steps
    from a store where they do: no call leaves a block without its record
    or its node. *)
Theorem steps_keep_live (document : Document) (σ σ' : Store) :
  live σ → host_steps document σ σ' → live σ'.
Proof.
  intros Hl Hs. induction Hs as [σ|σ σ' σ'' Hstep _ IH]; [done|].
  apply IH. by eapply live_step.
Qed.

Lemma sample_steps : host_steps html_document sample_store pasted_store.
Proof.
  eapply steps_next; [|apply steps_done].
  by apply step_onPaste with 0 sample_paste.
Defined.

Lemma steps_keep_live_witness :
  live sample_store ∧ host_steps html_document sample_store pasted_store
  ∧ live pasted_store.
Proof.
  split; [exact sample_store_live|]. split; [exact sample_steps|].
  apply (steps_keep_live html_document sample_store pasted_store).
  - exact sample_store_live.
  - exact sample_steps.
Defined.

(** X14.  What is fixed at construction stays fixed: over any sequence of
    steps an instance keeps its [api], its [_CSS], its [_placeholder], its
    [_element] and its [_preserveBlank]; only [_data] is ever
    reassigned. *)
Theorem steps_keep_configuration (document : Document) (σ σ' : Store)
    (this : ref) (inst : Title) :
  host_steps document σ σ' →
  instances σ !! this = Some inst →
  ∃ inst' : Title,
    instances σ' !! this = Some inst'
    ∧ api inst' = api inst
    ∧ _CSS inst' = _CSS inst
    ∧ _placeholder inst' = _placeholder inst
    ∧ _element inst' = _element inst
    ∧ _preserveBlank inst' = _preserveBlank inst.
Proof.
  intros Hs Hi. apply evolves_steps in Hs as (_ & _ & H).
  destruct (H _ _ Hi) as (inst' & Hi' & E). exists inst'.
  split; [done|]. by rewrite E.
Qed.

Lemma steps_keep_configuration_witness :
  host_steps html_document sample_store pasted_store ∧
  instances sample_store !! 0 = Some (assembled no_options host_api 0 0) ∧
  ∃ inst' : Title,
    instances pasted_store !! 0 = Some inst'
    ∧ api inst' = api (assembled no_options host_api 0 0)
    ∧ _CSS inst' = _CSS (assembled no_options host_api 0 0)
    ∧ _placeholder inst' = _placeholder (assembled no_options host_api 0 0)
    ∧ _element inst' = _element (assembled no_options host_api 0 0)
    ∧ _preserveBlank inst'
      = _preserveBlank (assembled no_options host_api 0 0).
Proof.
  split; [exact sample_steps|]. split; [reflexivity|].
  apply (steps_keep_configuration html_document sample_store pasted_store 0
           (assembled no_options host_api 0 0)).
  - exact sample_steps.
  - reflexivity.
Defined.

(** X15.  A node only ever changes in content: over any sequence of steps
    it keeps its tag, its classes, its editability and its placeholder
    attribute. *)
Theorem steps_keep_node_attributes (document : Document) (σ σ' : Store)
    (el : ref) (e : HTMLElement) :
  host_steps document σ σ' →
  elements σ !! el = Some e →
  ∃ e' : HTMLElement,
    elements σ' !! el = Some e'
    ∧ tagName e' = tagName e
    ∧ classList e' = classList e
    ∧ contentEditable e' = contentEditable e
    ∧ dataset e' = dataset e.
Proof.
  intros Hs He. apply evolves_steps in Hs as (_ & H & _).
  destruct (H _ _ He) as (e' & He' & E). exists e'.
  split; [done|]. by rewrite E.
Qed.

Lemma steps_keep_node_attributes_witness :
  host_steps html_document sample_store pasted_store ∧
  elements sample_store !! 0 = Some sample_node ∧
  ∃ e' : HTMLElement,
    elements pasted_store !! 0 = Some e'
    ∧ tagName e' = tagName sample_node
    ∧ classList e' = classList sample_node
    ∧ contentEditable e' = contentEditable sample_node
    ∧ dataset e' = dataset sample_node.
Proof.
  split; [exact sample_steps|]. split; [reflexivity|].
  apply (steps_keep_node_attributes html_document sample_store
           pasted_store 0 sample_node).
  - exact sample_steps.
  - reflexivity.
Defined.

(** X16.  [render] keeps returning the node it returned first, whatever
    has been called in between; the node is never created anew. *)
Theorem render_returns_same_node (document : Document) (σ σ' : Store)
    (this node : ref) :
  host_steps document σ σ' →
  render this σ = Return node σ →
  render this σ' = Return node σ'.
Proof.
  intros Hs Hr. apply render_Return in Hr as (inst & Hi & -> & _).
  apply evolves_steps in Hs as (_ & _ & H).
  destruct (H _ _ Hi) as (inst' & Hi' & E).
  unfold render. rewrite (run_field _ _ _ _ Hi'). by rewrite E.
Qed.

Lemma render_returns_same_node_witness :
  host_steps html_document sample_store pasted_store ∧
  render 0 sample_store = Return 0 sample_store ∧
  render 0 pasted_store = Return 0 pasted_store.
Proof.
  split; [exact sample_steps|]. split; [reflexivity|].
  apply (render_returns_same_node html_document sample_store pasted_store
           0 0).
  - exact sample_steps.
  - reflexivity.
Defined.

(** X17.  The two ways of reading a block agree: the record the getter
    returns and the record [save] returns for the rendered node carry the
    same text, the node's markup. *)
Theorem getter_agrees_with_save (σ : Store) (this : ref) (inst : Title)
    (e : HTMLElement) (o : TitleData) :
  instances σ !! this = Some inst →
  elements σ !! _element inst = Some e →
  objects σ !! _data inst = Some o →
  ∃ σ' : Store,
    (d ← get_data this;
     node ← render this;
     saved ← save this node;
     od ← readObject d;
     os ← readObject saved;
     mret (text od, text os)) σ
    = Return (Some (innerHTML e), Some (innerHTML e)) σ'
    ∧ elements σ' = elements σ.
Proof.
  intros Hi He Ho.
  rewrite (run_bind_Return _ _ _ _ _ (run_get_data _ _ _ _ _ Hi He Ho)).
  unfold render.
  erewrite run_bind_Return; [|apply run_field; store_simpl; exact Hi].
  erewrite run_bind_Return; [|apply run_save; store_simpl; exact He].
  unfold readObject. rewrite !run_bind. store_simpl.
  rewrite length_insert.
  erewrite lookup_snoc_old
    by (apply list_lookup_insert_eq; by eapply lookup_lt_Some).
  cbv beta iota. store_simpl.
  rewrite run_bind. store_simpl.
  rewrite (list_lookup_middle _ [] _ (length (objects σ)))
    by (by rewrite length_insert).
  rewrite run_ret. eexists. by split.
Qed.

Lemma getter_agrees_with_save_witness :
  instances sample_store !! 0 = Some (assembled no_options host_api 0 0) ∧
  elements sample_store !! _element (assembled no_options host_api 0 0)
  = Some sample_node ∧
  objects sample_store !! _data (assembled no_options host_api 0 0)
  = Some {| text := Some (js "<b>Hi</b>") |} ∧
  ∃ σ' : Store,
    (d ← get_data 0;
     node ← render 0;
     saved ← save 0 node;
     od ← readObject d;
     os ← readObject saved;
     mret (text od, text os)) sample_store
    = Return (Some (innerHTML sample_node), Some (innerHTML sample_node)) σ'
    ∧ elements σ' = elements sample_store.
Proof.
  do 3 (split; [reflexivity|]).
  apply (getter_agrees_with_save sample_store 0
           (assembled no_options host_api 0 0) sample_node
           {| text := Some (js "<b>Hi</b>") |}); reflexivity.
Defined.
